(** * fincalc: the finance formulas of src/index.js, embedded in Rocq

    The library works on JavaScript numbers.  They are embedded here as the
    extended reals: a number is NaN, one of the two infinities, or a finite
    real.  Arithmetic on finite numbers is exact (the rounding of doubles is
    idealised away, and so are overflow, underflow and the sign of zero: the
    one finite zero stands for +0); NaN and the infinities propagate as
    IEEE 754 and ECMAScript prescribe.

    Where the result of the code depends on how its operations round, the
    property proved is stated on the value the code forms, by the same
    operations in the same order, and what it needs of the intermediate
    values (a discount factor other than 0, a finite quotient, a finite
    price) is a hypothesis. *)

From Stdlib Require Import Reals Lra Lia ZArith List String Ascii Bool.
Import ListNotations.

Open Scope R_scope.

(** ** Decisions on the reals, as booleans *)

Definition Rltb (x y : R) : bool := if Rlt_dec x y then true else false.
Definition Reqb (x y : R) : bool := if Req_dec_T x y then true else false.

(** ** JavaScript numbers *)

Inductive number : Type :=
| NaN
| PInf
| NInf
| Fin (x : R).

Declare Scope num_scope.
Delimit Scope num_scope with num.
Bind Scope num_scope with number.

Definition num_neg (a : number) : number :=
  match a with
  | NaN => NaN
  | PInf => NInf
  | NInf => PInf
  | Fin x => Fin (- x)
  end.

Definition num_add (a b : number) : number :=
  match a, b with
  | NaN, _ | _, NaN => NaN
  | PInf, NInf | NInf, PInf => NaN
  | PInf, _ | _, PInf => PInf
  | NInf, _ | _, NInf => NInf
  | Fin x, Fin y => Fin (x + y)
  end.

Definition num_sub (a b : number) : number := num_add a (num_neg b).

(** The sign of a finite real picks the infinity of a product or quotient;
    a zero factor against an infinity is NaN. *)
Definition signed_inf (x : R) : number :=
  if Rltb 0 x then PInf else if Rltb x 0 then NInf else NaN.

Definition num_mul (a b : number) : number :=
  match a, b with
  | NaN, _ | _, NaN => NaN
  | PInf, PInf | NInf, NInf => PInf
  | PInf, NInf | NInf, PInf => NInf
  | PInf, Fin y | Fin y, PInf => signed_inf y
  | NInf, Fin y | Fin y, NInf => signed_inf (- y)
  | Fin x, Fin y => Fin (x * y)
  end.

(** Division: a finite number over an infinity is 0; a non-zero finite number
    over 0 is an infinity of its sign, and 0/0 is NaN; an infinity over a
    finite number keeps or flips its sign with the sign of the divisor (the
    divisor 0 is +0). *)
Definition num_div (a b : number) : number :=
  match a, b with
  | NaN, _ | _, NaN => NaN
  | (PInf | NInf), (PInf | NInf) => NaN
  | PInf, Fin y => if Rltb y 0 then NInf else PInf
  | NInf, Fin y => if Rltb y 0 then PInf else NInf
  | Fin _, (PInf | NInf) => Fin 0
  | Fin x, Fin y => if Reqb y 0 then signed_inf x else Fin (x / y)
  end.

(** Relational operators: every comparison with NaN is false. *)
Definition num_ltb (a b : number) : bool :=
  match a, b with
  | NaN, _ | _, NaN => false
  | _, NInf => false
  | NInf, _ => true
  | PInf, _ => false
  | _, PInf => true
  | Fin x, Fin y => Rltb x y
  end.

Definition num_leb (a b : number) : bool :=
  match a, b with
  | NaN, _ | _, NaN => false
  | _, _ => negb (num_ltb b a)
  end.

Definition num_gtb (a b : number) : bool := num_ltb b a.
Definition num_geb (a b : number) : bool := num_leb b a.

(** Strict equality [===] on numbers. *)
Definition num_eqb (a b : number) : bool :=
  match a, b with
  | PInf, PInf | NInf, NInf => true
  | Fin x, Fin y => Reqb x y
  | _, _ => false
  end.

Notation "a + b" := (num_add a b) : num_scope.
Notation "a - b" := (num_sub a b) : num_scope.
Notation "a * b" := (num_mul a b) : num_scope.
Notation "a / b" := (num_div a b) : num_scope.
Notation "- a" := (num_neg a) : num_scope.
Notation "a <? b" := (num_ltb a b) (at level 70) : num_scope.
Notation "a <=? b" := (num_leb a b) (at level 70) : num_scope.
Notation "a >? b" := (num_gtb a b) (at level 70) : num_scope.
Notation "a >=? b" := (num_geb a b) (at level 70) : num_scope.
Notation "a === b" := (num_eqb a b) (at level 70) : num_scope.

(** [Number.isFinite] on a number. *)
Definition Number_isFinite (a : number) : bool :=
  match a with
  | Fin _ => true
  | _ => false
  end.

Definition Math_abs (a : number) : number :=
  match a with
  | NaN => NaN
  | PInf | NInf => PInf
  | Fin x => Fin (Rabs x)
  end.

(** [Math.round]: the nearest integer, a tie going up ([Zfloor] is the
    largest integer not above its argument); NaN and the infinities are
    returned as they are. *)
Definition Math_round (a : number) : number :=
  match a with
  | Fin x => Fin (IZR (Zfloor (x + / 2)))
  | _ => a
  end.

(** [Math.min] of two numbers. *)
Definition Math_min (a b : number) : number :=
  match a, b with
  | NaN, _ | _, NaN => NaN
  | _, _ => if (a <? b)%num then a else b
  end.

(** Whether a real is a whole number, and which. *)
Definition R_integer (x : R) : option Z :=
  if Reqb (IZR (Zfloor x)) x then Some (Zfloor x) else None.

(** [Math.pow], by the cases of ECMAScript's Number::exponentiate.  For
    finite arguments the exact power stands for the implementation's
    approximation of it: an integer power for a whole exponent, [Rpower]
    (exp (e ln b)) for a positive base, NaN for a negative base with a
    fractional exponent. *)
Definition Math_pow (base expo : number) : number :=
  match expo with
  | NaN => NaN
  | Fin e =>
      if Reqb e 0 then Fin 1 else
      match base with
      | NaN => NaN
      | PInf => if Rltb 0 e then PInf else Fin 0
      | NInf =>
          if Rltb 0 e then
            match R_integer e with
            | Some n => if Z.odd n then NInf else PInf
            | None => PInf
            end
          else Fin 0
      | Fin b =>
          if Reqb b 0 then (if Rltb 0 e then Fin 0 else PInf)
          else match R_integer e with
               | Some n => Fin (powerRZ b n)
               | None => if Rltb 0 b then Fin (Rpower b e) else NaN
               end
      end
  | PInf =>
      match base with
      | NaN => NaN
      | PInf | NInf => PInf
      | Fin b =>
          if Rltb 1 (Rabs b) then PInf
          else if Reqb (Rabs b) 1 then NaN else Fin 0
      end
  | NInf =>
      match base with
      | NaN => NaN
      | PInf | NInf => Fin 0
      | Fin b =>
          if Rltb 1 (Rabs b) then Fin 0
          else if Reqb (Rabs b) 1 then NaN else PInf
      end
  end.

Coercion Fin : R >-> number.

(** The index that [Array.prototype.reduce] hands to its callback, as a
    number. *)
Definition num_of_nat (t : nat) : number := Fin (INR t).

(** ** Outcomes of a call

    The library signals failure by throwing [Error(message)].  The error
    kinds are the ones the specification names; the messages thrown are
    'Invalid rate', 'Invalid date', 'Unsupported basis',
    'cashflows and dates length mismatch' and, for the three solvers,
    'IRR not bracketed; check cashflows',
    'XIRR not bracketed; check cashflows/dates' and 'Yield not bracketed'. *)

Inductive error : Type :=
| InvalidRate
| InvalidDate
| UnsupportedBasis
| LengthMismatch
| RootNotBracketed.

(** A call returns a value, throws, or (a coupon loop whose bound the
    counter cannot pass) never returns. *)
Inductive result (A : Type) : Type :=
| Ok (a : A)
| Throw (e : error)
| Diverges.

Arguments Ok {A} a.
Arguments Throw {A} e.
Arguments Diverges {A}.

Definition bind {A B : Type} (m : result A) (k : A -> result B) : result B :=
  match m with
  | Ok a => k a
  | Throw e => Throw e
  | Diverges => Diverges
  end.

Notation "x <- m ;; k" := (bind m (fun x => k))
  (at level 61, m at next level, right associativity).

(** ** Array.prototype.reduce with the element index *)

Fixpoint reduce_from {A : Type} (step : A -> number -> nat -> A)
    (l : list number) (t : nat) (acc : A) : A :=
  match l with
  | [] => acc
  | cf :: rest => reduce_from step rest (S t) (step acc cf t)
  end.

Definition reduce {A : Type} (step : A -> number -> nat -> A)
    (l : list number) (init : A) : A :=
  reduce_from step l 0 init.

(** ** npv *)

(** One step of the discounting sum: [acc + cf / Math.pow(1 + rate, t)]. *)
Definition discount_step (rate : number) (acc cf : number) (t : nat) : number :=
  (acc + cf / Math_pow (1 + rate) (num_of_nat t))%num.

Definition npv (rate : number) (cashflows : list number) : result number :=
  if negb (Number_isFinite rate) then Throw InvalidRate
  else Ok (reduce (discount_step rate) cashflows 0).

(** ** The two phases shared by irr, xirr and bondYield

    The three solvers repeat the same two loops over a payoff [f], a
    derivative [df] and a tolerance [tol]; the loops are written once here.
    [f] may throw (xnpv does) or diverge (the coupon loop does). *)

Section RootFinder.

Variables f df : number -> result number.
Variable tol : number.

(** The Newton loop, [n] iterations left.  [Some r] is the early return of
    [r]; [None] is leaving the loop (by [break] or by exhausting it) for the
    bisection. *)
Fixpoint newton (n : nat) (r : number) : result (option number) :=
  match n with
  | O => Ok None
  | S n' =>
      y <- f r ;;
      dy <- df r ;;
      if (Math_abs y <? tol)%num then Ok (Some r)
      else if (dy === 0)%num || negb (Number_isFinite dy) then Ok None
      else
        let r1 := (r - y / dy)%num in
        if negb (Number_isFinite r1) || (r1 <=? -0.999999)%num then Ok None
        else newton n' r1
  end.

(** The bisection loop, [n] iterations left. *)
Fixpoint bisect (n : nat) (lo hi flo fhi : number) : result number :=
  match n with
  | O => Ok ((lo + hi) / 2)%num
  | S n' =>
      let mid := ((lo + hi) / 2)%num in
      fm <- f mid ;;
      if (Math_abs fm <? tol)%num then Ok mid
      else if (flo * fm <=? 0)%num then bisect n' lo mid flo fm
      else bisect n' mid hi fm fhi
  end.

(** Newton from [guess] for 50 iterations, then the bracket test on
    [lo, hi] and 200 bisections. *)
Definition solve (guess lo hi : number) : result number :=
  found <- newton 50 guess ;;
  match found with
  | Some r => Ok r
  | None =>
      flo <- f lo ;;
      fhi <- f hi ;;
      if (flo * fhi >? 0)%num then Throw RootNotBracketed
      else bisect 200 lo hi flo fhi
  end.

End RootFinder.

(** ** irr *)

(** The default of the parameter [guess] of irr and xirr. *)
Definition default_guess : number := 0.1.

(** The callback of [df]: [acc + (t ? -t * cf / Math.pow(1 + r, t + 1) : 0)]. *)
Definition irr_df_step (r : number) (acc cf : number) (t : nat) : number :=
  (acc + (match t with
          | O => 0
          | S _ => (- num_of_nat t * cf) / Math_pow (1 + r) (num_of_nat t + 1)
          end))%num.

Definition irr (cashflows : list number) (guess : number) : result number :=
  let f := fun r => Ok (reduce (discount_step r) cashflows 0) in
  let df := fun r => Ok (reduce (irr_df_step r) cashflows 0) in
  solve f df 1e-10 guess (-0.9) 10.

(** ** Dates

    A Date object holds a time value: milliseconds since 1970-01-01T00:00Z,
    or NaN for an Invalid Date ([None] here).  The calendar fields follow
    ECMAScript's Day, YearFromTime, MonthFromTime and DateFromTime on the
    proleptic Gregorian calendar in UTC. *)

Record Date : Type := mkDate { time_value : option Z }.

Definition msPerDay : Z := 86400000.

(** Year, month (1..12) and day of month of a day number counted from
    1970-01-01. *)
Definition civil_from_days (z : Z) : Z * Z * Z :=
  let z := (z + 719468)%Z in
  let era := (z / 146097)%Z in
  let doe := (z - era * 146097)%Z in
  let yoe := ((doe - doe / 1460 + doe / 36524 - doe / 146096) / 365)%Z in
  let y := (yoe + era * 400)%Z in
  let doy := (doe - (365 * yoe + yoe / 4 - yoe / 100))%Z in
  let mp := ((5 * doy + 2) / 153)%Z in
  let d := (doy - (153 * mp + 2) / 5 + 1)%Z in
  let m := (if mp <? 10 then mp + 3 else mp - 9)%Z in
  ((if m <=? 2 then y + 1 else y)%Z, m, d).

(** The day number of a calendar date. *)
Definition days_from_civil (y m d : Z) : Z :=
  let y := (if m <=? 2 then y - 1 else y)%Z in
  let era := (y / 400)%Z in
  let yoe := (y - era * 400)%Z in
  let doy := ((153 * (if 2 <? m then m - 3 else m + 9) + 2) / 5 + d - 1)%Z in
  let doe := (yoe * 365 + yoe / 4 - yoe / 100 + doy)%Z in
  (era * 146097 + doe - 719468)%Z.

Definition date_field (pick : Z * Z * Z -> Z) (D : Date) : number :=
  match time_value D with
  | None => NaN
  | Some ms => Fin (IZR (pick (civil_from_days (ms / msPerDay))))
  end.

Definition getUTCFullYear : Date -> number :=
  date_field (fun ymd => fst (fst ymd)).

(** Months are numbered from 0. *)
Definition getUTCMonth : Date -> number :=
  date_field (fun ymd => (snd (fst ymd) - 1)%Z).

Definition getUTCDate : Date -> number :=
  date_field (fun ymd => snd ymd).

(** A Date used as an operand of [-] is converted to its time value. *)
Definition Date_valueOf (D : Date) : number :=
  match time_value D with
  | None => NaN
  | Some ms => Fin (IZR ms)
  end.

(** The values that reach [Number.isNaN] in this library. *)
Inductive value : Type :=
| VNumber (x : number)
| VDate (D : Date).

(** [Number.isNaN(v)] does not convert its argument: it is true only of
    the Number NaN, and false of every object. *)
Definition Number_isNaN (v : value) : bool :=
  match v with
  | VNumber NaN => true
  | _ => false
  end.

(** ** Day count, xnpv and xirr *)

(** The default of the parameter [basis] of yearFrac and of the option
    [basis] of xnpv and xirr; the functions below take the basis as an
    argument. *)
Definition default_basis : string := "ACT/365".

(** [reduce] whose callback may throw. *)
Fixpoint reduceM_from (step : number -> number -> nat -> result number)
    (l : list number) (t : nat) (acc : number) : result number :=
  match l with
  | [] => Ok acc
  | cf :: rest => acc' <- step acc cf t ;; reduceM_from step rest (S t) acc'
  end.

Definition reduceM (step : number -> number -> nat -> result number)
    (l : list number) (init : number) : result number :=
  reduceM_from step l 0 init.

Section DayCount.

(** [Date.parse] on the date strings handed to the library: the time value,
    or [None] when the string is not recognised as a date. *)
Variable Date_parse : string -> option Z.

(** [new Date(d)]; an argument that is [undefined] ([None]: an index past
    the end of the array of dates) gives an Invalid Date. *)
Definition new_Date (d : option string) : Date :=
  match d with
  | Some s => mkDate (Date_parse s)
  | None => mkDate None
  end.

Definition yearFrac (d0 d1 : option string) (basis : string) : result number :=
  let D0 := new_Date d0 in
  let D1 := new_Date d1 in
  if Number_isNaN (VDate D0) || Number_isNaN (VDate D1) then Throw InvalidDate
  else if String.eqb basis "ACT/365" then
    Ok ((Date_valueOf D1 - Date_valueOf D0) / (1000 * 60 * 60 * 24 * 365))%num
  else if String.eqb basis "ACT/360" then
    Ok ((Date_valueOf D1 - Date_valueOf D0) / (1000 * 60 * 60 * 24 * 360))%num
  else if String.eqb basis "30E/360" then
    let y0 := getUTCFullYear D0 in
    let m0 := (getUTCMonth D0 + 1)%num in
    let d0e := Math_min (getUTCDate D0) 30 in
    let y1 := getUTCFullYear D1 in
    let m1 := (getUTCMonth D1 + 1)%num in
    let d1e := Math_min (getUTCDate D1) 30 in
    Ok (((360 * (y1 - y0)) + 30 * (m1 - m0) + (d1e - d0e)) / 360)%num
  else Throw UnsupportedBasis.

(** The callback of xnpv's reduce. *)
Definition xnpv_step (rate : number) (dates : list string) (basis : string)
    (acc cf : number) (i : nat) : result number :=
  yf <- yearFrac (nth_error dates 0) (nth_error dates i) basis ;;
  Ok (acc + cf / Math_pow (1 + rate) yf)%num.

Definition xnpv (rate : number) (cashflows : list number)
    (dates : list string) (basis : string) : result number :=
  if negb (Nat.eqb (List.length cashflows) (List.length dates)) then Throw LengthMismatch
  else reduceM (xnpv_step rate dates basis) cashflows 0.

Definition xirr (cashflows : list number) (dates : list string)
    (guess : number) (basis : string) : result number :=
  let f := fun r => xnpv r cashflows dates basis in
  let df := fun r =>
    let h : number := 1e-6 in
    above <- f (r + h)%num ;;
    below <- f (r - h)%num ;;
    Ok ((above - below) / (2 * h))%num in
  solve f df 1e-8 guess (-0.9) 10.

End DayCount.

(** ** paybackPeriod and profitabilityIndex *)

(** The scan of paybackPeriod from index [t] with running sum [cum];
    running off the end of the array returns Infinity. *)
Fixpoint paybackPeriod_from (cashflows : list number) (t : nat) (cum : number)
    : number :=
  match cashflows with
  | [] => PInf
  | c :: rest =>
      let prev := cum in
      let cum := (cum + c)%num in
      if (cum >=? 0)%num then
        let needed := (- prev)%num in
        let within := c in
        let frac := if negb (within === 0)%num then (needed / within)%num
                    else Fin 0 in
        (num_of_nat t - 1 + frac)%num
      else paybackPeriod_from rest (S t) cum
  end.

Definition paybackPeriod (cashflows : list number) : number :=
  paybackPeriod_from cashflows 0 0.

(** A number in a boolean position: 0 and NaN are falsy. *)
Definition truthy (a : number) : bool :=
  match a with
  | NaN => false
  | Fin x => negb (Reqb x 0)
  | _ => true
  end.

(** [cashflows[0] || 0]; the first element of an empty array is
    [undefined], which is falsy. *)
Definition first_or_zero (cashflows : list number) : number :=
  match cashflows with
  | [] => 0
  | c :: _ => if truthy c then c else 0
  end.

Definition profitabilityIndex (rate : number) (cashflows : list number)
    : result number :=
  let c0 := first_or_zero cashflows in
  pv <- npv rate (tl cashflows) ;;
  Ok (pv / Math_abs c0)%num.

(** ** Bonds *)

(** How often the body of [for (let t = 1; t <= m; t++)] runs: never when
    [m] is NaN or below 1, and without end ([None]) when [m] is +Infinity or
    at least 2^53 = 9007199254740992, the first value of the counter that
    [t++] leaves as it is. *)
Definition loop_bound (m : number) : option nat :=
  match m with
  | NaN | NInf => Some O
  | PInf => None
  | Fin x =>
      if Rltb x 9007199254740992 then Some (Z.to_nat (Zfloor x)) else None
  end.

(** The body run for t = 1, 2, ..., n in that order. *)
Fixpoint for_1_to {A : Type} (n : nat) (body : A -> nat -> A) (init : A) : A :=
  match n with
  | O => init
  | S n' => body (for_1_to n' body init) (S n')
  end.

(** The loop shared by bondPrice and by the payoff of bondYield:
    the coupons [c] of periods 1..m discounted at the period yield [y],
    then the face value at period [m]. *)
Definition coupon_pv (c face m y : number) : result number :=
  match loop_bound m with
  | None => Diverges
  | Some n =>
      let pv := for_1_to n
        (fun pv t => (pv + c / Math_pow (1 + y) (num_of_nat t))%num) (Fin 0) in
      Ok (pv + face / Math_pow (1 + y) m)%num
  end.

Definition bondPrice (face couponRate yieldRate years freq : number)
    : result number :=
  let c := ((couponRate * face) / freq)%num in
  let m := Math_round (years * freq) in
  let y := (yieldRate / freq)%num in
  coupon_pv c face m y.


(** One pass of the loop of macaulayDuration over the pair
    (pvTotal, tWeighted). *)
Definition duration_step (c face m y freq : number)
    (st : number * number) (t : nat) : number * number :=
  let cf := if (num_of_nat t <? m)%num then c else (c + face)%num in
  let disc := Math_pow (1 + y) (num_of_nat t) in
  let pv := (cf / disc)%num in
  (fst st + pv, snd st + (num_of_nat t / freq) * pv)%num.

Definition macaulayDuration (face couponRate yieldRate years freq : number)
    : result number :=
  let c := ((couponRate * face) / freq)%num in
  let m := Math_round (years * freq) in
  let y := (yieldRate / freq)%num in
  match loop_bound m with
  | None => Diverges
  | Some n =>
      let st := for_1_to n (duration_step c face m y freq) (Fin 0, Fin 0) in
      Ok (snd st / fst st)%num
  end.

(** ** A parser for the examples

    Date.parse accepts the date-only form YYYY-MM-DD of ECMAScript's date
    time string format as midnight UTC of that day; what else it accepts is
    left to the implementation.  [parse_iso_date] reads exactly that form and
    recognises nothing else; the examples below run the library on it. *)

Definition digit (c : ascii) : option Z :=
  let n := nat_of_ascii c in
  if (Nat.leb 48 n && Nat.leb n 57)%bool then Some (Z.of_nat (n - 48)) else None.

Fixpoint digits (cs : list ascii) (acc : Z) : option Z :=
  match cs with
  | [] => Some acc
  | c :: rest =>
      match digit c with
      | Some d => digits rest (10 * acc + d)%Z
      | None => None
      end
  end.

Definition is_leap (y : Z) : bool :=
  ((y mod 4 =? 0) && (negb (y mod 100 =? 0) || (y mod 400 =? 0)))%Z.

Definition days_in_month (y m : Z) : Z :=
  (if m =? 2 then (if is_leap y then 29 else 28)
   else if (m =? 4) || (m =? 6) || (m =? 9) || (m =? 11) then 30
   else 31)%Z.

Definition parse_iso_date (s : string) : option Z :=
  match list_ascii_of_string s with
  | [y1; y2; y3; y4; "-"%char; m1; m2; "-"%char; d1; d2] =>
      match digits [y1; y2; y3; y4] 0, digits [m1; m2] 0, digits [d1; d2] 0 with
      | Some y, Some m, Some d =>
          if ((1 <=? m) && (m <=? 12) && (1 <=? d) && (d <=? days_in_month y m))%Z
          then Some (days_from_civil y m d * msPerDay)%Z
          else None
      | _, _, _ => None
      end
  | _ => None
  end.

(** ** The formulas of the specification *)

(** The three day-count bases. *)
Definition supported_basis (basis : string) : Prop :=
  basis = "ACT/365"%string \/ basis = "ACT/360"%string \/ basis = "30E/360"%string.

(** Every date of the list parses. *)
Definition valid_dates (Date_parse : string -> option Z) (dates : list string)
    : Prop :=
  forall d, In d dates -> Date_parse d <> None.

(** The direct summation of the specification for presentValue: the terms
    [c[t] / (1+rate)^t] for t = 0 .. n-1, added in the order of the index. *)
Fixpoint direct_sum (rate : number) (c : list number) (n : nat) : number :=
  match n with
  | O => Fin 0
  | S k =>
      (direct_sum rate c k
       + nth k c NaN / Math_pow (1 + rate) (num_of_nat k))%num
  end.

(** The profitability index as the claim words it: the terms
    [c[t] / (1+rate)^t] for t = 1 .. N-1, each flow discounted by its own
    index, over [|c[0]|]. *)
Fixpoint pv_from_period_1 (rate : number) (c : list number) (n : nat) : number :=
  match n with
  | O => Fin 0
  | S k =>
      (pv_from_period_1 rate c k
       + nth (S k) c NaN / Math_pow (1 + rate) (num_of_nat (S k)))%num
  end.

Definition profitabilityIndex_spec (rate : number) (c : list number) : number :=
  (pv_from_period_1 rate c (List.length c - 1) / Math_abs (nth 0 c NaN))%num.



(** The rates the Newton loop can hold after its first step: finite and
    above the floor, hence above -1. *)
Definition above_minus_one (r : number) : Prop :=
  exists x : R, r = Fin x /\ -1 < x.

(** ** annuityPV and annuityFV *)

Definition annuityPV (rate n pmt : number) : number :=
  if (rate === 0)%num then (pmt * n)%num
  else (pmt * (1 - Math_pow (1 + rate) (- n)) / rate)%num.

Definition annuityFV (rate n pmt : number) : number :=
  if (rate === 0)%num then (pmt * n)%num
  else (pmt * (Math_pow (1 + rate) n - 1) / rate)%num.

(** ** convexity *)

(** One pass of the loop of convexity:
    [sum += (cf * t * (t + 1)) / disc]. *)
Definition convexity_step (c face m y : number) (sum : number) (t : nat)
    : number :=
  let cf := if (num_of_nat t <? m)%num then c else (c + face)%num in
  let disc := Math_pow (1 + y) (num_of_nat t) in
  (sum + (cf * num_of_nat t * (num_of_nat t + 1)) / disc)%num.

Definition convexity (face couponRate yieldRate years freq : number)
    : result number :=
  let c := ((couponRate * face) / freq)%num in
  let m := Math_round (years * freq) in
  let y := (yieldRate / freq)%num in
  match loop_bound m with
  | None => Diverges
  | Some n =>
      let sum := for_1_to n (convexity_step c face m y) (Fin 0) in
      price <- bondPrice face couponRate yieldRate years freq ;;
      Ok (sum / (price * Math_pow (1 + y) 2 * Math_pow freq 2))%num
  end.

(** ** wacc and ddmGordon

    The two throw 'Weights must sum to 1' and
    'Required return must exceed growth'. *)

Inductive formula_error : Type :=
| InvalidWeights
| NonConvergentGrowth.

(** The fields of the argument object of wacc, in the order
    we, wd, re, rd, tax. *)
Definition wacc (we wd re rd tax : number) : formula_error + number :=
  if (Math_abs (we + wd - 1) >? 1e-8)%num then inl InvalidWeights
  else inr (we * re + wd * rd * (1 - tax))%num.

Definition ddmGordon (D1 g r : number) : formula_error + number :=
  if (r <=? g)%num then inl NonConvergentGrowth
  else inr (D1 / (r - g))%num.

(** ** The release before the day-count bases

    The earlier src/index.js has no yearFrac: its xnpv builds the Date of
    dates[0] once and divides the milliseconds between the dates by those
    of 365 days. *)

Module V1.

Section Dates.

Variable Date_parse : string -> option Z.

Definition daysBetween (d0 d1 : option string) : number :=
  let t0 := Date_valueOf (new_Date Date_parse d0) in
  let t1 := Date_valueOf (new_Date Date_parse d1) in
  ((t1 - t0) / (1000 * 60 * 60 * 24))%num.

(** The callback of the reduce of xnpv. *)
Definition xnpv_step (rate : number) (dates : list string) (t0 : Date)
    (acc cf : number) (i : nat) : number :=
  let di := new_Date Date_parse (nth_error dates i) in
  let yearFrac :=
    ((Date_valueOf di - Date_valueOf t0) / (1000 * 60 * 60 * 24 * 365))%num in
  (acc + cf / Math_pow (1 + rate) yearFrac)%num.

Definition xnpv (rate : number) (cashflows : list number)
    (dates : list string) : result number :=
  if negb (Nat.eqb (List.length cashflows) (List.length dates))
  then Throw LengthMismatch
  else
    let t0 := new_Date Date_parse (nth_error dates 0) in
    Ok (reduce (xnpv_step rate dates t0) cashflows 0).

Definition xirr (cashflows : list number) (dates : list string)
    (guess : number) : result number :=
  let f := fun r => xnpv r cashflows dates in
  let df := fun r =>
    let h : number := 1e-6 in
    above <- f (r + h)%num ;;
    below <- f (r - h)%num ;;
    Ok ((above - below) / (2 * h))%num in
  solve f df 1e-8 guess (-0.9) 10.

End Dates.

End V1.

(** ** What the properties speak of *)

(** A number other than NaN and the infinities. *)
Definition is_finite (a : number) : Prop := exists x : R, a = Fin x.

(** A divisor over which 0 is 0: a number other than 0 (NaN is no
    number). *)
Definition divides_zero (d : number) : Prop := d <> NaN /\ d <> Fin 0.

(** Two numbers of one strict sign: both above 0 or both below 0. *)
Definition same_strict_sign (a b : number) : Prop :=
  ((0 <? a)%num = true /\ (0 <? b)%num = true) \/
  ((a <? 0)%num = true /\ (b <? 0)%num = true).

(** The payoff [f] is finite at the rate [v] and within [tol] of 0. *)
Definition payoff_within (f : number -> result number) (v tol : R) : Prop :=
  exists y : R, f (Fin v) = Ok (Fin y) /\ Rabs y < tol.

(** The payoffs of [f] at the two ends of a bracket have one strict sign. *)
Definition one_signed_bracket (f : number -> result number) (lo hi : number)
    : Prop :=
  exists ylo yhi : number,
    f lo = Ok ylo /\ f hi = Ok yhi /\ same_strict_sign ylo yhi.

(** The sum [cashflows.reduce((acc, cf) => acc + cf, 0)]: the flows added
    one by one in the order of the array. *)
Definition plain_sum (cashflows : list number) : number :=
  fold_left num_add cashflows (Fin 0).

(** The running total [cum] of paybackPeriod after the first [k] flows,
    each flow added to the total of the flows before it. *)
Fixpoint running_sum (cashflows : list number) (k : nat) : number :=
  match k with
  | O => Fin 0
  | S k' => (running_sum cashflows k' + nth k' cashflows NaN)%num
  end.

(** The value of the return statement of paybackPeriod at the index [t]:
    [t - 1 + frac], with [frac] the total still missing before the period
    over the flow of the period, or 0 for a flow of 0. *)
Definition payback_at (cashflows : list number) (t : nat) : number :=
  let needed := (- running_sum cashflows t)%num in
  let within := nth t cashflows NaN in
  let frac := if negb (within === 0)%num then (needed / within)%num
              else Fin 0 in
  (num_of_nat t - 1 + frac)%num.


(** * Properties *)

Arguments Math_pow : simpl never.
Arguments Math_round : simpl never.
Arguments num_of_nat : simpl never.

(** ** Booleans of the real decisions *)

Lemma Rltb_true (x y : R) : x < y -> Rltb x y = true.
Proof. intros H. unfold Rltb. destruct (Rlt_dec x y); [reflexivity | contradiction]. Qed.

Lemma Rltb_false (x y : R) : y <= x -> Rltb x y = false.
Proof. intros H. unfold Rltb. destruct (Rlt_dec x y); [lra | reflexivity]. Qed.

Lemma Reqb_true (x y : R) : x = y -> Reqb x y = true.
Proof. intros H. unfold Reqb. destruct (Req_dec_T x y); [reflexivity | contradiction]. Qed.

Lemma Reqb_false (x y : R) : x <> y -> Reqb x y = false.
Proof. intros H. unfold Reqb. destruct (Req_dec_T x y); [contradiction | reflexivity]. Qed.

Lemma Rltb_spec (x y : R) : reflect (x < y) (Rltb x y).
Proof. unfold Rltb. destruct (Rlt_dec x y); constructor; assumption. Qed.

Lemma Reqb_spec (x y : R) : reflect (x = y) (Reqb x y).
Proof. unfold Reqb. destruct (Req_dec_T x y); constructor; assumption. Qed.

(** Settle every real test of the goal that [lra] can decide. *)
Ltac rtest :=
  repeat match goal with
  | |- context [Rltb ?a ?b] =>
      first [ rewrite (Rltb_true a b) by lra | rewrite (Rltb_false a b) by lra ]
  | |- context [Reqb ?a ?b] =>
      first [ rewrite (Reqb_true a b) by lra | rewrite (Reqb_false a b) by lra ]
  | |- context [Rabs ?a] =>
      first [ rewrite (Rabs_pos_eq a) by lra | rewrite (Rabs_left a) by lra ]
  end.

(** Evaluate the number operations of the goal as far as the real tests
    can be settled. *)
Ltac num_eval :=
  repeat (progress
    (cbn [num_add num_sub num_neg num_mul num_div num_ltb num_leb num_gtb
          num_geb num_eqb Number_isFinite Math_abs signed_inf bind negb orb
          andb fst snd pow INR];
     rtest)).

Lemma Fin_eq (x y : R) : x = y -> Fin x = Fin y.
Proof. now intros ->. Qed.

Lemma Ok_Fin_eq (x y : R) : x = y -> @Ok number (Fin x) = Ok (Fin y).
Proof. now intros ->. Qed.

(** Reduce an equation between finite numbers to the equation between the
    reals, and try to close it. *)
Ltac fin_eq :=
  first [ apply Ok_Fin_eq | apply Fin_eq ];
  try first [ lra | field; lra | field_simplify; lra ].

(** Split on the real tests that are left. *)
Ltac rsplit :=
  repeat match goal with
  | |- context [Rltb ?a ?b] => destruct (Rltb_spec a b)
  | |- context [Reqb ?a ?b] => destruct (Reqb_spec a b)
  end.

(** ** Math.pow at whole exponents *)

Lemma R_integer_IZR (z : Z) : R_integer (IZR z) = Some z.
Proof.
  unfold R_integer. rewrite ZfloorZ. now rewrite Reqb_true.
Qed.

Lemma R_integer_INR (t : nat) : R_integer (INR t) = Some (Z.of_nat t).
Proof. rewrite INR_IZR_INZ. apply R_integer_IZR. Qed.

Lemma Math_pow_nat (b : R) (t : nat) :
  Math_pow (Fin b) (num_of_nat t) = Fin (b ^ t).
Proof.
  unfold Math_pow, num_of_nat.
  destruct t as [|t].
  - cbn [INR pow]. now rewrite Reqb_true.
  - assert (Ht : 0 < INR (S t)) by (apply lt_0_INR; lia).
    rewrite (Reqb_false (INR (S t))) by lra.
    destruct (Reqb_spec b 0) as [->|Hb].
    + rewrite Rltb_true by assumption. now rewrite pow_i by lia.
    + now rewrite R_integer_INR, <- pow_powerRZ.
Qed.

Lemma Math_pow_zero (b : number) : Math_pow b (Fin 0) = Fin 1.
Proof. unfold Math_pow. now rewrite Reqb_true. Qed.

(** ** npv *)

Lemma reduce_from_direct_sum (rate : number) (suf pre : list number) :
  reduce_from (discount_step rate) suf (List.length pre)
    (direct_sum rate (pre ++ suf) (List.length pre))
  = direct_sum rate (pre ++ suf) (List.length (pre ++ suf)).
Proof.
  revert pre. induction suf as [|c rest IH]; intros pre.
  - now rewrite app_nil_r.
  - simpl reduce_from.
    specialize (IH (pre ++ [c])).
    rewrite <- app_assoc in IH. simpl app in IH.
    rewrite <- IH. rewrite length_app. simpl List.length.
    replace (List.length pre + 1)%nat with (S (List.length pre)) by lia.
    simpl direct_sum. unfold discount_step.
    now rewrite nth_middle.
Qed.

Lemma reduce_direct_sum (rate : number) (c : list number) :
  reduce (discount_step rate) c 0 = direct_sum rate c (List.length c).
Proof. exact (reduce_from_direct_sum rate c []). Qed.

(** C6. presentValue: for a finite rate npv returns the direct summation of
    [c[t] / (1+rate)^t] over t = 0 .. N-1, and for a rate that is NaN or an
    infinity it fails with InvalidRate, whatever the cashflows. *)
Theorem npv_direct_sum (rate : number) (c : list number) :
  npv rate c =
    if Number_isFinite rate then Ok (direct_sum rate c (List.length c))
    else Throw InvalidRate.
Proof.
  unfold npv. destruct (Number_isFinite rate); cbn [negb]; [|reflexivity].
  now rewrite reduce_direct_sum.
Qed.

(** On finite cashflows and a finite rate other than -1 the summation is the
    sum of the reals [c[t] / (1+r)^t] for t = 0 .. n. *)
Lemma direct_sum_real (r : R) (xs : list R) (n : nat) :
  1 + r <> 0 -> (S n <= List.length xs)%nat ->
  direct_sum (Fin r) (map Fin xs) (S n)
  = Fin (sum_f_R0 (fun t => nth t xs 0 / (1 + r) ^ t) n).
Proof.
  intros Hr.
  assert (Hterm : forall k, (k < List.length xs)%nat ->
            (nth k (map Fin xs) NaN
             / Math_pow (1 + Fin r) (num_of_nat k))%num
            = Fin (nth k xs 0 / (1 + r) ^ k)).
  { intros k Hk. change (1 + Fin r)%num with (Fin (1 + r)).
    rewrite Math_pow_nat.
    replace (nth k (map Fin xs) NaN) with (Fin (nth k xs 0)).
    - cbn [num_div]. rewrite Reqb_false; [reflexivity|]. now apply pow_nonzero.
    - rewrite <- (map_nth Fin). apply nth_indep. rewrite length_map. lia. }
  induction n as [|n IH]; intros Hn.
  - cbn [direct_sum sum_f_R0]. rewrite Hterm by lia. fin_eq.
  - change (direct_sum (Fin r) (map Fin xs) (S (S n)))
      with (direct_sum (Fin r) (map Fin xs) (S n)
            + nth (S n) (map Fin xs) NaN
              / Math_pow (1 + Fin r) (num_of_nat (S n)))%num.
    rewrite IH by lia. rewrite Hterm by lia. reflexivity.
Qed.

Lemma npv_real_sum (r x0 : R) (xs : list R) :
  1 + r <> 0 ->
  npv (Fin r) (map Fin (x0 :: xs))
  = Ok (Fin (sum_f_R0 (fun t => nth t (x0 :: xs) 0 / (1 + r) ^ t)
               (List.length xs))).
Proof.
  intros Hr. unfold npv. cbn [Number_isFinite negb].
  rewrite reduce_direct_sum, length_map. cbn [List.length].
  rewrite direct_sum_real; [reflexivity | assumption | cbn [List.length]; lia].
Qed.

Example npv_test_basic :
  npv 0.1 [Fin (-100); Fin 50; Fin 60] = Ok (Fin (-100 + 50 / 1.1 + 60 / 1.21)).
Proof.
  unfold npv, reduce. simpl. f_equal. unfold discount_step.
  change (1 + Fin 0.1)%num with (Fin (1 + 0.1)).
  rewrite !Math_pow_nat. num_eval. fin_eq.
Qed.

(** ** profitabilityIndex *)

(** C4. At rate 0.1 and cashflows [-100, 110] the code returns 1.1: the
    flow of period 1 reaches npv at index 0 of the slice and is not
    discounted.  The present value of that flow is 110/1.1 = 100, so the
    index of the claim is 1. *)
Theorem profitabilityIndex_discounts_one_period_short :
  profitabilityIndex 0.1 [Fin (-100); Fin 110] = Ok (Fin 1.1) /\
  profitabilityIndex_spec 0.1 [Fin (-100); Fin 110] = Fin 1 /\
  Fin 1.1 <> Fin 1.
Proof.
  split; [|split].
  - unfold profitabilityIndex, npv, reduce, first_or_zero, truthy, discount_step.
    cbn [tl reduce_from Number_isFinite negb bind Math_abs].
    change (1 + Fin 0.1)%num with (Fin (1 + 0.1)).
    rewrite Math_pow_nat. num_eval. fin_eq.
  - unfold profitabilityIndex_spec.
    cbn [List.length Nat.sub pv_from_period_1 nth Math_abs].
    change (1 + Fin 0.1)%num with (Fin (1 + 0.1)).
    rewrite Math_pow_nat. num_eval. fin_eq.
  - intros H. injection H. lra.
Qed.

(** At rate 0.1 the flows [-100, 50, 60] have a negative present value,
    yet the code's index is above 1. *)
Example profitabilityIndex_above_1_at_negative_npv :
  exists pv x : R,
    npv 0.1 [Fin (-100); Fin 50; Fin 60] = Ok (Fin pv) /\ pv < 0 /\
    profitabilityIndex 0.1 [Fin (-100); Fin 50; Fin 60] = Ok (Fin x) /\ 1 < x.
Proof.
  exists (-100 + 50 / 1.1 + 60 / 1.21), ((50 + 60 / 1.1) / 100).
  split; [|split; [lra|split; [|lra]]].
  - unfold npv, reduce. cbn [Number_isFinite negb reduce_from].
    unfold discount_step. change (1 + Fin 0.1)%num with (Fin (1 + 0.1)).
    rewrite !Math_pow_nat. num_eval. fin_eq.
  - unfold profitabilityIndex, npv, reduce, first_or_zero, truthy, discount_step.
    cbn [tl reduce_from Number_isFinite negb bind Math_abs].
    change (1 + Fin 0.1)%num with (Fin (1 + 0.1)).
    rewrite !Math_pow_nat. num_eval. fin_eq.
Qed.

(** What the code computes in general: the present value of the slice,
    whose flow [c[t]] sits at index [t - 1]. *)
Lemma profitabilityIndex_slice (rate c0 : number) (rest : list number) :
  profitabilityIndex rate (c0 :: rest) =
    if Number_isFinite rate then
      Ok (direct_sum rate rest (List.length rest)
          / Math_abs (first_or_zero [c0]))%num
    else Throw InvalidRate.
Proof.
  unfold profitabilityIndex, npv. cbn [tl].
  destruct (Number_isFinite rate); cbn [negb bind]; [|reflexivity].
  now rewrite reduce_direct_sum.
Qed.

(** Over a zero divisor a quotient is an infinity or NaN. *)
Lemma num_div_zero (pv : number) :
  (pv / Fin 0)%num = PInf \/ (pv / Fin 0)%num = NInf \/ (pv / Fin 0)%num = NaN.
Proof.
  destruct pv as [| | |x]; cbn [num_div]; rtest; auto.
  unfold signed_inf. rsplit; auto.
Qed.

(** C10, as amended.  With cashflows[0] = 0 and a finite rate,
    profitabilityIndex does not fail: it returns the discounted sum [pv] of
    the remaining flows divided by |0|, which is +Infinity, -Infinity or NaN,
    and NaN when [pv] is 0. *)
Theorem profitabilityIndex_zero_outlay (rate : number) (rest : list number) :
  Number_isFinite rate = true ->
  exists pv : number,
    npv rate rest = Ok pv /\
    profitabilityIndex rate (Fin 0 :: rest) = Ok (pv / Fin 0)%num /\
    ((pv / Fin 0)%num = PInf \/ (pv / Fin 0)%num = NInf \/
     (pv / Fin 0)%num = NaN) /\
    (pv = Fin 0 -> profitabilityIndex rate (Fin 0 :: rest) = Ok NaN).
Proof.
  intros Hfin.
  assert (Hpi : forall pv, npv rate rest = Ok pv ->
            profitabilityIndex rate (Fin 0 :: rest) = Ok (pv / Fin 0)%num).
  { intros pv Hpv. unfold profitabilityIndex. cbn [tl]. rewrite Hpv.
    unfold first_or_zero, truthy. rtest. cbn [negb bind Math_abs].
    now rewrite Rabs_R0. }
  exists (reduce (discount_step rate) rest 0).
  assert (Hnpv : npv rate rest = Ok (reduce (discount_step rate) rest 0)).
  { unfold npv. now rewrite Hfin. }
  split; [exact Hnpv|]. split; [now apply Hpi|]. split; [apply num_div_zero|].
  intros Hz. rewrite (Hpi _ Hnpv), Hz. cbn [num_div]. rtest.
  unfold signed_inf. now rtest.
Qed.

Lemma profitabilityIndex_zero_outlay_witness :
  Number_isFinite 0.1 = true /\
  exists pv : number,
    npv 0.1 [Fin 50] = Ok pv /\
    profitabilityIndex 0.1 [Fin 0; Fin 50] = Ok (pv / Fin 0)%num /\
    ((pv / Fin 0)%num = PInf \/ (pv / Fin 0)%num = NInf \/
     (pv / Fin 0)%num = NaN) /\
    (pv = Fin 0 -> profitabilityIndex 0.1 [Fin 0; Fin 50] = Ok NaN).
Proof.
  split; [reflexivity|].
  apply (profitabilityIndex_zero_outlay 0.1 [Fin 50]). reflexivity.
Defined.

(** C10 as stated fails at a rate that is not finite: npv throws before the
    division is reached. *)
Lemma profitabilityIndex_zero_outlay_fails_on_NaN_rate :
  profitabilityIndex NaN [Fin 0; Fin 50] = Throw InvalidRate.
Proof. reflexivity. Qed.

(** ** paybackPeriod *)

(** C8. When the first cashflow is at least 0 the scan stops at index 0
    with an interpolation fraction of 0 and returns 0 - 1 + 0 = -1. *)
Theorem paybackPeriod_first_nonneg (c : number) (rest : list number) :
  (c >=? 0)%num = true -> paybackPeriod (c :: rest) = Fin (-1).
Proof.
  unfold paybackPeriod, num_geb. cbn [paybackPeriod_from].
  destruct c as [| | |x]; cbn [num_leb num_ltb negb]; try discriminate.
  - intros _. unfold num_of_nat. cbn [num_add num_geb num_leb num_ltb negb
      num_eqb num_neg num_div num_sub INR]. f_equal. lra.
  - intros Hx. destruct (Rltb_spec x 0) as [Hlt|Hge]; [discriminate|].
    unfold num_of_nat. num_eval. cbn [INR]. unfold num_geb.
    num_eval. destruct (Reqb_spec x 0) as [->|Hnz]; cbn [negb].
    + num_eval. f_equal. lra.
    + num_eval. f_equal. field. assumption.
Qed.

Lemma paybackPeriod_first_nonneg_witness :
  (Fin 5 >=? 0)%num = true /\ paybackPeriod [Fin 5; Fin (-3)] = Fin (-1).
Proof.
  assert (H : (Fin 5 >=? 0)%num = true).
  { unfold num_geb. cbn [num_leb num_ltb]. now rtest. }
  split; [exact H|]. apply (paybackPeriod_first_nonneg (Fin 5) [Fin (-3)]).
  exact H.
Defined.

(** ** yearFrac *)

Section DayCountFacts.

Variable Date_parse : string -> option Z.

Lemma Number_isNaN_Date (D : Date) : Number_isNaN (VDate D) = false.
Proof. reflexivity. Qed.

(** The guard of yearFrac tests Date objects with [Number.isNaN], which is
    false of every object: the throw of 'Invalid date' is dead code. *)
Lemma yearFrac_never_InvalidDate (d0 d1 : option string) (basis : string) :
  yearFrac Date_parse d0 d1 basis <> Throw InvalidDate.
Proof.
  unfold yearFrac. rewrite !Number_isNaN_Date. cbn [orb].
  destruct (String.eqb basis "ACT/365"); [discriminate|].
  destruct (String.eqb basis "ACT/360"); [discriminate|].
  destruct (String.eqb basis "30E/360"); discriminate.
Qed.

Lemma Date_valueOf_invalid (d : option string) :
  time_value (new_Date Date_parse d) = None ->
  Date_valueOf (new_Date Date_parse d) = NaN /\
  getUTCFullYear (new_Date Date_parse d) = NaN /\
  getUTCMonth (new_Date Date_parse d) = NaN /\
  getUTCDate (new_Date Date_parse d) = NaN.
Proof.
  intros H. unfold Date_valueOf, getUTCFullYear, getUTCMonth, getUTCDate,
    date_field. now rewrite H.
Qed.

Lemma num_sub_NaN_l (a : number) : (NaN - a)%num = NaN.
Proof. now destruct a. Qed.

Lemma num_sub_NaN_r (a : number) : (a - NaN)%num = NaN.
Proof. now destruct a. Qed.

Lemma num_mul_NaN_r (a : number) : (a * NaN)%num = NaN.
Proof. now destruct a. Qed.

Lemma Math_min_NaN_l (a : number) : Math_min NaN a = NaN.
Proof. reflexivity. Qed.

(** With a date that does not parse, the year fraction of a supported
    basis is NaN. *)
Lemma yearFrac_unparseable_NaN (d0 d1 : option string) (basis : string) :
  time_value (new_Date Date_parse d0) = None \/
  time_value (new_Date Date_parse d1) = None ->
  supported_basis basis -> yearFrac Date_parse d0 d1 basis = Ok NaN.
Proof.
  intros Hbad Hb. unfold yearFrac. rewrite !Number_isNaN_Date. cbn [orb].
  assert (Hact : forall k : number,
    ((Date_valueOf (new_Date Date_parse d1)
      - Date_valueOf (new_Date Date_parse d0)) / k)%num = NaN).
  { intros k.
    destruct Hbad as [H|H]; apply Date_valueOf_invalid in H;
      destruct H as [-> _];
      [rewrite num_sub_NaN_r | rewrite num_sub_NaN_l]; reflexivity. }
  destruct Hb as [-> | [-> | ->]].
  - change (String.eqb "ACT/365" "ACT/365") with true. cbv iota.
    now rewrite Hact.
  - change (String.eqb "ACT/360" "ACT/365") with false.
    change (String.eqb "ACT/360" "ACT/360") with true. cbv iota.
    now rewrite Hact.
  - change (String.eqb "30E/360" "ACT/365") with false.
    change (String.eqb "30E/360" "ACT/360") with false.
    change (String.eqb "30E/360" "30E/360") with true. cbv iota zeta.
    destruct Hbad as [H|H]; apply Date_valueOf_invalid in H;
      destruct H as [_ [-> [-> ->]]]; rewrite Math_min_NaN_l.
    + rewrite !num_sub_NaN_r, num_mul_NaN_r. reflexivity.
    + rewrite !num_sub_NaN_l, num_mul_NaN_r. reflexivity.
Qed.

Lemma yearFrac_unsupported (d0 d1 : option string) (basis : string) :
  ~ supported_basis basis ->
  yearFrac Date_parse d0 d1 basis = Throw UnsupportedBasis.
Proof.
  intros Hb. unfold yearFrac. rewrite !Number_isNaN_Date. cbn [orb].
  destruct (String.eqb_spec basis "ACT/365") as [E|_];
    [exfalso; apply Hb; left; exact E|].
  destruct (String.eqb_spec basis "ACT/360") as [E|_];
    [exfalso; apply Hb; right; left; exact E|].
  destruct (String.eqb_spec basis "30E/360") as [E|_];
    [exfalso; apply Hb; right; right; exact E|].
  reflexivity.
Qed.

(** C3.  When one of the two dates does not parse, yearFrac does not fail
    with InvalidDate: under each of the three supported bases it returns
    NaN, and under any other basis tag it fails with UnsupportedBasis. *)
Theorem yearFrac_unparseable_date (d0 d1 : option string) (basis : string) :
  time_value (new_Date Date_parse d0) = None \/
  time_value (new_Date Date_parse d1) = None ->
  yearFrac Date_parse d0 d1 basis <> Throw InvalidDate /\
  (supported_basis basis -> yearFrac Date_parse d0 d1 basis = Ok NaN) /\
  (~ supported_basis basis ->
     yearFrac Date_parse d0 d1 basis = Throw UnsupportedBasis).
Proof.
  intros Hbad. split; [apply yearFrac_never_InvalidDate|]. split.
  - now apply yearFrac_unparseable_NaN.
  - apply yearFrac_unsupported.
Qed.

(** Two dates that parse give a finite year fraction under a supported
    basis, and 0 when they are the same instant. *)
Lemma yearFrac_valid (d0 d1 : string) (basis : string) (a b : Z) :
  Date_parse d0 = Some a -> Date_parse d1 = Some b ->
  supported_basis basis ->
  exists yf : R,
    yearFrac Date_parse (Some d0) (Some d1) basis = Ok (Fin yf) /\
    (a = b -> yf = 0).
Proof.
  intros H0 H1 Hb. unfold yearFrac, new_Date. rewrite H0, H1.
  rewrite !Number_isNaN_Date. cbn [orb].
  destruct Hb as [-> | [-> | ->]].
  - change (String.eqb "ACT/365" "ACT/365") with true. cbv iota.
    cbn [Date_valueOf time_value]. num_eval.
    eexists. split; [reflexivity|]. intros ->. field.
  - change (String.eqb "ACT/360" "ACT/365") with false.
    change (String.eqb "ACT/360" "ACT/360") with true. cbv iota.
    cbn [Date_valueOf time_value]. num_eval.
    eexists. split; [reflexivity|]. intros ->. field.
  - change (String.eqb "30E/360" "ACT/365") with false.
    change (String.eqb "30E/360" "ACT/360") with false.
    change (String.eqb "30E/360" "30E/360") with true. cbv iota zeta.
    unfold getUTCFullYear, getUTCMonth, getUTCDate, date_field, Math_min.
    cbn [time_value num_ltb].
    set (ca := civil_from_days (a / msPerDay)).
    set (cb := civil_from_days (b / msPerDay)).
    destruct (Rltb_spec (IZR (snd ca)) 30) as [Ha|Ha];
      destruct (Rltb_spec (IZR (snd cb)) 30) as [Hb|Hb];
      num_eval; (eexists; split; [reflexivity|]);
      intros E; subst ca cb; rewrite E in *; try lra; field.
Qed.

End DayCountFacts.

Lemma yearFrac_unparseable_date_witness :
  (time_value (new_Date parse_iso_date (Some "not-a-date"%string)) = None \/
   time_value (new_Date parse_iso_date (Some "2025-01-01"%string)) = None) /\
  yearFrac parse_iso_date (Some "not-a-date"%string) (Some "2025-01-01"%string)
    "ACT/365" = Ok NaN.
Proof.
  assert (H : time_value (new_Date parse_iso_date (Some "not-a-date"%string)) = None \/
     time_value (new_Date parse_iso_date (Some "2025-01-01"%string)) = None)
    by (left; reflexivity).
  split; [exact H|].
  apply (yearFrac_unparseable_date parse_iso_date _ _ "ACT/365" H).
  left. reflexivity.
Defined.

(** ** xnpv *)

Section XnpvFacts.

Variable Date_parse : string -> option Z.

Lemma valid_dates_nth (dates : list string) (i : nat) :
  valid_dates Date_parse dates -> (i < List.length dates)%nat ->
  exists d a, nth_error dates i = Some d /\ Date_parse d = Some a.
Proof.
  intros Hv Hi.
  destruct (nth_error dates i) as [d|] eqn:E.
  - destruct (Date_parse d) as [a|] eqn:Ea.
    + now exists d, a.
    + exfalso. apply (Hv d); [eapply nth_error_In; eassumption | assumption].
  - apply nth_error_None in E. lia.
Qed.

(** The only failure of the reduce of xnpv is a failure of yearFrac, and
    yearFrac succeeds on dates that parse. *)
Lemma xnpv_reduce_total (rate : number) (dates : list string) (basis : string) :
  valid_dates Date_parse dates -> supported_basis basis ->
  forall (l : list number) (t : nat) (acc : number),
    (t + List.length l <= List.length dates)%nat ->
    exists v, reduceM_from (xnpv_step Date_parse rate dates basis) l t acc = Ok v.
Proof.
  intros Hv Hb. induction l as [|cf rest IH]; intros t acc Hlen.
  - now exists acc.
  - cbn [List.length] in Hlen. cbn [reduceM_from]. unfold xnpv_step at 1.
    destruct (valid_dates_nth dates 0 Hv) as [d0 [a [E0 Ea]]]; [lia|].
    destruct (valid_dates_nth dates t Hv) as [d1 [b [E1 Eb]]]; [lia|].
    rewrite E0, E1.
    destruct (yearFrac_valid Date_parse d0 d1 basis a b Ea Eb Hb)
      as [yf [-> _]].
    cbn [bind]. apply IH. lia.
Qed.

Lemma xnpv_total (rate : number) (cashflows : list number)
    (dates : list string) (basis : string) :
  List.length cashflows = List.length dates ->
  valid_dates Date_parse dates -> supported_basis basis ->
  exists v, xnpv Date_parse rate cashflows dates basis = Ok v.
Proof.
  intros Hlen Hv Hb. unfold xnpv. rewrite Hlen, Nat.eqb_refl. cbn [negb].
  apply xnpv_reduce_total; [assumption | assumption | lia].
Qed.

Lemma xnpv_reduce_never_InvalidRate (rate : number) (dates : list string)
    (basis : string) (l : list number) :
  forall (t : nat) (acc : number),
    reduceM_from (xnpv_step Date_parse rate dates basis) l t acc
      <> Throw InvalidRate.
Proof.
  induction l as [|cf rest IH]; intros t acc; cbn [reduceM_from].
  - discriminate.
  - unfold xnpv_step at 1. unfold yearFrac.
    rewrite !Number_isNaN_Date. cbn [orb].
    destruct (String.eqb basis "ACT/365"); [cbn [bind]; apply IH|].
    destruct (String.eqb basis "ACT/360"); [cbn [bind]; apply IH|].
    destruct (String.eqb basis "30E/360"); [cbn [bind]; apply IH|].
    discriminate.
Qed.

(** C9, as amended.  xnpv has no finiteness check on its rate: at a rate
    that is NaN or an infinity, on lists of equal length, dates that parse
    and a supported basis, it returns a number, where npv fails with
    InvalidRate.  The number returned need not be NaN or an infinity. *)
Theorem xnpv_no_rate_check (rate : number) (cashflows : list number)
    (dates : list string) (basis : string) :
  Number_isFinite rate = false ->
  List.length cashflows = List.length dates ->
  valid_dates Date_parse dates -> supported_basis basis ->
  (exists v, xnpv Date_parse rate cashflows dates basis = Ok v) /\
  npv rate cashflows = Throw InvalidRate.
Proof.
  intros Hrate Hlen Hv Hb. split.
  - now apply xnpv_total.
  - unfold npv. now rewrite Hrate.
Qed.

(** Whatever its arguments, xnpv does not fail with InvalidRate. *)
Lemma xnpv_never_InvalidRate (rate : number) (cashflows : list number)
    (dates : list string) (basis : string) :
  xnpv Date_parse rate cashflows dates basis <> Throw InvalidRate.
Proof.
  unfold xnpv.
  destruct (negb (Nat.eqb (List.length cashflows) (List.length dates)));
    [discriminate|].
  apply xnpv_reduce_never_InvalidRate.
Qed.

(** Under ACT/365 a date 365 i days after the first one is i years
    after it. *)
Lemma yearFrac_365_days (d0 d1 : string) (t0 : Z) (i : nat) :
  Date_parse d0 = Some t0 ->
  Date_parse d1 = Some (t0 + 365 * Z.of_nat i * msPerDay)%Z ->
  yearFrac Date_parse (Some d0) (Some d1) "ACT/365" = Ok (num_of_nat i).
Proof.
  intros H0 H1. unfold yearFrac, new_Date. rewrite H0, H1.
  rewrite !Number_isNaN_Date. cbn [orb].
  change (String.eqb "ACT/365" "ACT/365") with true. cbv iota.
  cbn [Date_valueOf time_value]. num_eval. unfold num_of_nat.
  apply Ok_Fin_eq. unfold msPerDay.
  rewrite plus_IZR, !mult_IZR, <- INR_IZR_INZ. field.
Qed.

Lemma xnpv_reduce_365 (r : R) (dates : list string) (t0 : Z) :
  (forall i d, nth_error dates i = Some d ->
     Date_parse d = Some (t0 + 365 * Z.of_nat i * msPerDay)%Z) ->
  forall (l : list number) (t : nat) (acc : number),
    (t + List.length l <= List.length dates)%nat ->
    reduceM_from (xnpv_step Date_parse (Fin r) dates "ACT/365") l t acc
    = Ok (reduce_from (discount_step (Fin r)) l t acc).
Proof.
  intros Hd. induction l as [|cf rest IH]; intros t acc Hlen.
  - reflexivity.
  - cbn [List.length] in Hlen. cbn [reduceM_from reduce_from].
    unfold xnpv_step at 1.
    destruct (nth_error dates 0) as [d0|] eqn:E0;
      [|apply nth_error_None in E0; lia].
    destruct (nth_error dates t) as [d1|] eqn:E1;
      [|apply nth_error_None in E1; lia].
    rewrite (yearFrac_365_days d0 d1 t0 t).
    + cbn [bind]. rewrite IH by lia. reflexivity.
    + rewrite (Hd 0%nat d0 E0). f_equal. unfold msPerDay. lia.
    + exact (Hd t d1 E1).
Qed.

(** C7.  At a finite rate r with 1 + r > 0, on cashflows paired with as
    many dates, each of which parses and lies 365 i days after dates[0],
    xnpv under ACT/365 returns what npv returns on the rate and the
    cashflows. *)
Theorem xnpv_365_days_apart_is_npv (r : R) (cashflows : list number)
    (dates : list string) (t0 : Z) :
  0 < 1 + r ->
  List.length cashflows = List.length dates ->
  (forall i d, nth_error dates i = Some d ->
     Date_parse d = Some (t0 + 365 * Z.of_nat i * msPerDay)%Z) ->
  xnpv Date_parse (Fin r) cashflows dates "ACT/365" = npv (Fin r) cashflows.
Proof.
  intros _ Hlen Hd. unfold xnpv, npv, reduceM, reduce.
  rewrite Hlen, Nat.eqb_refl. cbn [negb Number_isFinite].
  apply xnpv_reduce_365 with (t0 := t0); [assumption | lia].
Qed.

End XnpvFacts.

(** The dates of the examples: 2025 is not a leap year, so 2026-01-01 is
    365 days after 2025-01-01. *)
Lemma dates_2025_2026_valid :
  valid_dates parse_iso_date ["2025-01-01"; "2026-01-01"]%string.
Proof.
  intros d [<- | [<- | []]]; discriminate.
Qed.

Lemma dates_2025_2026_365_apart (i : nat) (d : string) :
  nth_error ["2025-01-01"; "2026-01-01"]%string i = Some d ->
  parse_iso_date d = Some (1735689600000 + 365 * Z.of_nat i * msPerDay)%Z.
Proof.
  destruct i as [|[|i]]; cbn [nth_error]; intros H.
  - injection H as <-. reflexivity.
  - injection H as <-. reflexivity.
  - destruct i; discriminate.
Qed.

Lemma xnpv_365_days_apart_is_npv_witness :
  0 < 1 + 0.1 /\
  xnpv parse_iso_date 0.1 [Fin (-100); Fin 110]
    ["2025-01-01"; "2026-01-01"]%string "ACT/365"
  = npv 0.1 [Fin (-100); Fin 110].
Proof.
  assert (H : 0 < 1 + 0.1) by lra.
  split; [exact H|].
  exact (xnpv_365_days_apart_is_npv parse_iso_date 0.1 [Fin (-100); Fin 110]
           ["2025-01-01"; "2026-01-01"]%string 1735689600000%Z H eq_refl
           dates_2025_2026_365_apart).
Defined.

Lemma xnpv_no_rate_check_witness :
  Number_isFinite PInf = false /\
  (exists v, xnpv parse_iso_date PInf [Fin (-100); Fin 110]
     ["2025-01-01"; "2026-01-01"]%string "ACT/365" = Ok v) /\
  npv PInf [Fin (-100); Fin 110] = Throw InvalidRate.
Proof.
  split; [reflexivity|].
  apply (xnpv_no_rate_check parse_iso_date PInf [Fin (-100); Fin 110]
           ["2025-01-01"; "2026-01-01"]%string "ACT/365").
  - reflexivity.
  - reflexivity.
  - exact dates_2025_2026_valid.
  - left. reflexivity.
Defined.

(** C9 as stated fails: at the rate +Infinity, with flows one year apart,
    every flow after the first is discounted to 0 and xnpv returns the
    first flow, a finite number. *)
Lemma xnpv_infinite_rate_returns_finite :
  Number_isFinite PInf = false /\
  xnpv parse_iso_date PInf [Fin (-100); Fin 110]
    ["2025-01-01"; "2026-01-01"]%string "ACT/365" = Ok (Fin (-100)) /\
  Number_isFinite (Fin (-100)) = true.
Proof.
  split; [reflexivity|]. split; [|reflexivity].
  unfold xnpv, reduceM. cbn [List.length Nat.eqb negb reduceM_from].
  unfold xnpv_step. cbn [nth_error].
  rewrite (yearFrac_365_days parse_iso_date "2025-01-01" "2025-01-01"
             1735689600000%Z 0) by reflexivity.
  rewrite (yearFrac_365_days parse_iso_date "2025-01-01" "2026-01-01"
             1735689600000%Z 1) by reflexivity.
  cbn [bind num_add]. unfold Math_pow, num_of_nat. num_eval.
  fin_eq.
Qed.

(** ** Zero and one in the number operations

    Laws of the operations that the rounding of doubles leaves intact: the
    properties of the coupon loops, the running sums and the rates at 0
    rest on these. *)

Lemma num_add_0_l (a : number) : (0 + a)%num = a.
Proof. destruct a; cbn [num_add]; try reflexivity. apply Fin_eq. lra. Qed.

Lemma num_add_0_r (a : number) : (a + 0)%num = a.
Proof. destruct a; cbn [num_add]; try reflexivity. apply Fin_eq. lra. Qed.

Lemma zero_div (d : number) : divides_zero d -> (0 / d)%num = 0.
Proof.
  intros [Hnan Hzero]. destruct d as [| | |y]; cbn [num_div];
    try reflexivity; [contradiction|].
  rewrite Reqb_false by (intros ->; now apply Hzero).
  apply Fin_eq. unfold Rdiv. apply Rmult_0_l.
Qed.

Lemma zero_mul_l (a : number) : is_finite a -> (0 * a)%num = 0.
Proof. intros [x ->]. cbn [num_mul]. apply Fin_eq. lra. Qed.

Lemma zero_mul_r (a : number) : is_finite a -> (a * 0)%num = 0.
Proof. intros [x ->]. cbn [num_mul]. apply Fin_eq. lra. Qed.

Lemma num_div_1 (a : number) : (a / 1)%num = a.
Proof.
  destruct a as [| | |x]; cbn [num_div]; rtest; try reflexivity.
  apply Fin_eq. field.
Qed.

Lemma is_finite_Fin (x : R) : is_finite (Fin x).
Proof. now exists x. Qed.

Lemma divides_zero_Fin (x : R) : x <> 0 -> divides_zero (Fin x).
Proof.
  intros Hx. split; [discriminate|]. intros E. injection E as E. now apply Hx.
Qed.

(** The two conditions hold throughout where the arithmetic is exact: a
    power of a positive base is not 0, and a quotient by a divisor other
    than 0 is finite. *)
Lemma Math_pow_divides_zero (b : R) (t : nat) :
  0 < b -> divides_zero (Math_pow (Fin b) (num_of_nat t)).
Proof.
  intros Hb. rewrite Math_pow_nat. apply divides_zero_Fin.
  apply Rgt_not_eq. now apply pow_lt.
Qed.

Lemma ratio_is_finite (x q : R) : q <> 0 -> is_finite (Fin x / Fin q)%num.
Proof.
  intros Hq. cbn [num_div]. rewrite Reqb_false by assumption.
  apply is_finite_Fin.
Qed.

Lemma one_plus_ratio (y q : R) :
  q <> 0 -> (1 + Fin y / Fin q)%num = Fin (1 + y / q).
Proof. intros Hq. cbn [num_div]. now rewrite Reqb_false by assumption. Qed.

(** ** macaulayDuration *)

Lemma loop_bound_nat (n : nat) :
  (Z.of_nat n < 9007199254740992)%Z -> loop_bound (num_of_nat n) = Some n.
Proof.
  intros H. unfold loop_bound, num_of_nat.
  rewrite Rltb_true by (rewrite INR_IZR_INZ; now apply IZR_lt).
  rewrite INR_IZR_INZ, ZfloorZ. now rewrite Nat2Z.id.
Qed.

Lemma for_1_to_S {A : Type} (n : nat) (body : A -> nat -> A) (init : A) :
  for_1_to (S n) body init = body (for_1_to n body init) (S n).
Proof. reflexivity. Qed.

Lemma num_of_nat_ltb (t n : nat) :
  (num_of_nat t <? num_of_nat n)%num = Nat.ltb t n.
Proof.
  unfold num_of_nat. cbn [num_ltb].
  destruct (Nat.ltb_spec t n) as [H|H].
  - apply Rltb_true. now apply lt_INR.
  - apply Rltb_false. now apply le_INR.
Qed.

(** A coupon period before the last one adds nothing to either sum of a
    zero-coupon bond: its flow is 0, and so are its present value and its
    weighted present value. *)
Lemma duration_step_zero_coupon (face y freq : number) (n t : nat) :
  (t < n)%nat ->
  divides_zero (Math_pow (1 + y) (num_of_nat t)) ->
  is_finite (num_of_nat t / freq)%num ->
  duration_step (Fin 0) face (num_of_nat n) y freq (Fin 0, Fin 0) t
  = (Fin 0, Fin 0).
Proof.
  intros Ht Hd Hq. unfold duration_step.
  rewrite num_of_nat_ltb. apply Nat.ltb_lt in Ht. rewrite Ht.
  rewrite (zero_div _ Hd). cbn [fst snd].
  now rewrite (zero_mul_r _ Hq), !num_add_0_l.
Qed.

Lemma for_zero_coupon (face y freq : number) (n k : nat) :
  (k < n)%nat ->
  (forall t, (1 <= t <= k)%nat ->
     divides_zero (Math_pow (1 + y) (num_of_nat t)) /\
     is_finite (num_of_nat t / freq)%num) ->
  for_1_to k (duration_step (Fin 0) face (num_of_nat n) y freq) (Fin 0, Fin 0)
  = (Fin 0, Fin 0).
Proof.
  induction k as [|k IH]; intros Hk Hall.
  - reflexivity.
  - cbn [for_1_to]. rewrite IH; [| lia | intros t Ht; apply Hall; lia].
    destruct (Hall (S k)) as [Hd Hq]; [lia|].
    now apply duration_step_zero_coupon.
Qed.

(** C5, as amended.  For a zero-coupon bond with a finite face value,
    freq > 0 and m = round(years * freq) >= 1 coupon periods, all the
    weight of macaulayDuration is on the payment of period m: with
    pv = face / (1 + yieldRate/freq)^m the present value of that payment,
    it returns ((m / freq) * pv) / pv, each operation being the one the
    code performs.  This holds when, in every period t before m, the
    discount factor (1 + yieldRate/freq)^t is a number other than 0 and
    t / freq is finite.  The periods are counted by m, not by [years]. *)
Theorem macaulayDuration_zero_coupon (face freq : R) (yieldRate years : number)
    (n : nat) :
  0 < freq ->
  Math_round (years * freq) = num_of_nat n ->
  (1 <= n)%nat -> (Z.of_nat n < 9007199254740992)%Z ->
  (forall t, (1 <= t < n)%nat ->
     divides_zero (Math_pow (1 + yieldRate / freq) (num_of_nat t)) /\
     is_finite (num_of_nat t / freq)%num) ->
  macaulayDuration face 0 yieldRate years freq
  = Ok (let pv := (face / Math_pow (1 + yieldRate / freq) (num_of_nat n))%num in
        (num_of_nat n / freq * pv / pv)%num).
Proof.
  intros Hfreq Hround Hn Hbound Hall. unfold macaulayDuration.
  rewrite Hround, loop_bound_nat by assumption.
  rewrite (zero_mul_l (Fin face)) by apply is_finite_Fin.
  rewrite (zero_div (Fin freq)) by (apply divides_zero_Fin; lra).
  destruct n as [|k]; [lia|]. cbn [for_1_to].
  rewrite for_zero_coupon; [| lia | intros t Ht; apply Hall; lia].
  unfold duration_step. rewrite num_of_nat_ltb, Nat.ltb_irrefl.
  cbn [fst snd]. now rewrite !num_add_0_l.
Qed.

Lemma Zfloor_20_half : Zfloor (10 * 2 + / 2) = 20%Z.
Proof. apply Zfloor_eq. lra. Qed.

Lemma macaulayDuration_zero_coupon_witness :
  macaulayDuration 1000 0 0.06 10 2
  = Ok (let pv := (1000 / Math_pow (1 + 0.06 / 2) (num_of_nat 20))%num in
        (num_of_nat 20 / 2 * pv / pv)%num).
Proof.
  apply (macaulayDuration_zero_coupon 1000 2 0.06 10 20).
  - lra.
  - cbn [num_mul]. unfold Math_round, num_of_nat. rewrite Zfloor_20_half.
    now rewrite INR_IZR_INZ.
  - lia.
  - lia.
  - intros t _. split.
    + rewrite one_plus_ratio by lra. apply Math_pow_divides_zero. lra.
    + apply ratio_is_finite. lra.
Defined.

(** C5 as stated fails when years * freq is not whole: 2.5 years at one
    coupon a year is rounded to 3 periods and the duration is 3. *)
Lemma macaulayDuration_rounds_periods :
  macaulayDuration 1000 0 0.05 2.5 1 = Ok (Fin 3) /\ Fin 3 <> Fin 2.5.
Proof.
  split.
  - assert (Hr : Math_round (Fin 2.5 * Fin 1) = num_of_nat 3).
    { cbn [num_mul]. unfold Math_round, num_of_nat. apply Fin_eq.
      rewrite INR_IZR_INZ. f_equal. apply Zfloor_eq. cbn. lra. }
    unfold macaulayDuration.
    rewrite Hr, loop_bound_nat by lia.
    rewrite (zero_mul_l (Fin 1000)) by apply is_finite_Fin.
    rewrite (zero_div (Fin 1)) by (apply divides_zero_Fin; lra).
    rewrite for_1_to_S.
    rewrite for_zero_coupon; [| lia |].
    + unfold duration_step. rewrite num_of_nat_ltb, Nat.ltb_irrefl.
      rewrite one_plus_ratio by lra. rewrite Math_pow_nat.
      unfold num_of_nat. num_eval. fin_eq.
    + intros t _. split.
      * rewrite one_plus_ratio by lra. apply Math_pow_divides_zero. lra.
      * apply ratio_is_finite. lra.
  - intros H. injection H. lra.
Qed.

(** ** The Newton phase on a payoff that stays away from 0 *)

Lemma above_floor (r : number) :
  Number_isFinite r = true -> (r <=? -0.999999)%num = false ->
  above_minus_one r.
Proof.
  destruct r as [| | |x]; try discriminate. intros _.
  cbn [num_leb num_ltb]. destruct (Rltb_spec (-0.999999) x) as [H|H];
    [|discriminate].
  intros _. exists x. split; [reflexivity | lra].
Qed.

(** A payoff within the tolerance at the first rate is returned at once. *)
Lemma newton_returns_at_once (f df : number -> result number) (tol : number)
    (n : nat) (r y dy : number) :
  f r = Ok y -> df r = Ok dy -> (Math_abs y <? tol)%num = true ->
  newton f df tol (S n) r = Ok (Some r).
Proof.
  intros Hy Hdy Htol. cbn [newton]. rewrite Hy, Hdy. cbn [bind].
  now rewrite Htol.
Qed.

Lemma newton_never_returns (f df : number -> result number) (tol : number) :
  (forall r, above_minus_one r ->
     exists y dy, f r = Ok y /\ df r = Ok dy /\
                  (Math_abs y <? tol)%num = false) ->
  forall (n : nat) (r : number),
    above_minus_one r -> newton f df tol n r = Ok None.
Proof.
  intros Hf. induction n as [|n IH]; intros r Hr.
  - reflexivity.
  - cbn [newton]. destruct (Hf r Hr) as [y [dy [-> [-> Hy]]]].
    cbn [bind]. rewrite Hy.
    destruct ((dy === 0)%num || negb (Number_isFinite dy)); [reflexivity|].
    destruct (negb (Number_isFinite (r - y / dy)%num)
              || (r - y / dy <=? -0.999999)%num) eqn:E; [reflexivity|].
    apply orb_false_elim in E. destruct E as [E1 E2].
    apply IH. apply above_floor; [|assumption].
    now destruct (Number_isFinite (r - y / dy)%num).
Qed.

(** ** Payoffs of a one-signed series

    [sg] is 1 for a series of positive flows and -1 for a series of
    negative flows: [sg * c] is the magnitude of a flow. *)

Lemma Rabs_sign (sg s : R) : sg = 1 \/ sg = -1 -> sg * s <= Rabs s.
Proof.
  intros [-> | ->].
  - rewrite Rmult_1_l. apply Rle_abs.
  - replace (-1 * s) with (- s) by ring. rewrite <- Rabs_Ropp. apply Rle_abs.
Qed.

Lemma Math_pow_pos (b e : R) :
  0 < b -> exists p : R, Math_pow (Fin b) (Fin e) = Fin p /\ 0 < p.
Proof.
  intros Hb. unfold Math_pow.
  destruct (Reqb_spec e 0) as [_|_]; [exists 1; split; [reflexivity | lra]|].
  rewrite (Reqb_false b) by lra.
  destruct (R_integer e) as [n|].
  - exists (powerRZ b n). split; [reflexivity | now apply powerRZ_lt].
  - rewrite Rltb_true by assumption.
    exists (Rpower b e). split; [reflexivity | apply exp_pos].
Qed.

Lemma discount_reduce_signed (sg x : R) (xs : list R) :
  -1 < x -> (forall c, In c xs -> 0 < sg * c) ->
  forall (t : nat) (acc : R),
    exists s : R,
      reduce_from (discount_step (Fin x)) (map Fin xs) t (Fin acc) = Fin s /\
      sg * acc <= sg * s.
Proof.
  intros Hx. induction xs as [|c rest IH]; intros Hpos t acc.
  - exists acc. split; [reflexivity | lra].
  - cbn [map reduce_from]. unfold discount_step at 2.
    change (1 + Fin x)%num with (Fin (1 + x)). rewrite Math_pow_nat.
    assert (Hp : 0 < (1 + x) ^ t) by (apply pow_lt; lra).
    cbn [num_div num_add]. rewrite Reqb_false by lra.
    destruct (IH (fun c' H => Hpos c' (or_intror H)) (S t)
                (acc + c / (1 + x) ^ t)) as [s [Hs Hle]].
    exists s. split; [exact Hs|].
    assert (Hc : 0 < sg * c) by (apply Hpos; now left).
    assert (Hq : 0 < sg * c / (1 + x) ^ t) by now apply Rdiv_lt_0_compat.
    replace (sg * (acc + c / (1 + x) ^ t))
      with (sg * acc + sg * c / (1 + x) ^ t) in Hle by (unfold Rdiv; ring).
    lra.
Qed.

(** The payoff of irr at a rate above -1 is finite and at least as far
    from 0 as the first flow. *)
Lemma irr_payoff_signed (sg x c0 : R) (rest : list R) :
  -1 < x -> 0 < sg * c0 -> (forall c, In c rest -> 0 < sg * c) ->
  exists s : R,
    reduce (discount_step (Fin x)) (map Fin (c0 :: rest)) 0 = Fin s /\
    sg * c0 <= sg * s.
Proof.
  intros Hx H0 Hrest. unfold reduce. cbn [map reduce_from].
  unfold discount_step at 2.
  change (1 + Fin x)%num with (Fin (1 + x)). rewrite Math_pow_nat.
  cbn [pow num_div num_add]. rewrite Reqb_false by lra.
  destruct (discount_reduce_signed sg x rest Hx Hrest 1 (0 + c0 / 1))
    as [s [Hs Hle]].
  exists s. split; [exact Hs|].
  replace (0 + c0 / 1) with c0 in Hle by field. exact Hle.
Qed.

Lemma num_of_nat_succ (t : nat) : (num_of_nat t + 1)%num = num_of_nat (S t).
Proof. unfold num_of_nat. cbn [num_add]. now rewrite S_INR. Qed.

(** The derivative of irr at a rate above -1 is finite on finite flows. *)
Lemma irr_df_finite (x : R) (xs : list R) :
  -1 < x ->
  forall (t : nat) (acc : R),
    exists d : R,
      reduce_from (irr_df_step (Fin x)) (map Fin xs) t (Fin acc) = Fin d.
Proof.
  intros Hx. induction xs as [|c rest IH]; intros t acc.
  - now exists acc.
  - cbn [map reduce_from]. unfold irr_df_step at 2.
    destruct t as [|t].
    + cbn [num_add]. apply IH.
    + rewrite num_of_nat_succ.
      change (1 + Fin x)%num with (Fin (1 + x)). rewrite Math_pow_nat.
      assert (Hp : 0 < (1 + x) ^ S (S t)) by (apply pow_lt; lra).
      unfold num_of_nat. cbn [num_neg num_mul num_div num_add].
      rewrite Reqb_false by lra. apply IH.
Qed.

(** ** irr and xirr on a one-signed series *)

Lemma irr_one_signed (sg c0 : R) (rest : list R) (guess : R) :
  sg = 1 \/ sg = -1 ->
  (forall c, In c rest -> 0 < sg * c) ->
  1e-10 <= sg * c0 -> -1 < guess ->
  irr (map Fin (c0 :: rest)) (Fin guess) = Throw RootNotBracketed.
Proof.
  intros Hsg Hrest Htol Hg.
  assert (H0 : 0 < sg * c0) by lra.
  unfold irr, solve. rewrite newton_never_returns.
  - cbn [bind].
    destruct (irr_payoff_signed sg (-0.9) c0 rest) as [slo [-> Hlo]];
      [lra | assumption | assumption |].
    destruct (irr_payoff_signed sg 10 c0 rest) as [shi [-> Hhi]];
      [lra | assumption | assumption |].
    cbn [bind num_mul num_gtb num_ltb].
    rewrite Rltb_true; [reflexivity|].
    destruct Hsg as [-> | ->]; nra.
  - intros r [x [-> Hx]].
    destruct (irr_payoff_signed sg x c0 rest Hx H0 Hrest) as [s [Hs Hle]].
    destruct (irr_df_finite x (c0 :: rest) Hx 0 0) as [d Hd].
    exists (Fin s), (Fin d).
    split; [now rewrite Hs|]. split; [unfold reduce; now rewrite Hd|].
    cbn [Math_abs num_ltb]. apply Rltb_false.
    pose proof (Rabs_sign sg s Hsg). lra.
  - exists guess. split; [reflexivity | assumption].
Qed.

Section XirrFacts.

Variable Date_parse : string -> option Z.

Lemma xnpv_reduce_signed (sg x : R) (dates : list string) (basis : string) :
  -1 < x -> valid_dates Date_parse dates -> supported_basis basis ->
  forall xs : list R, (forall c, In c xs -> 0 < sg * c) ->
  forall (t : nat) (acc : R),
    (t + List.length xs <= List.length dates)%nat ->
    exists s : R,
      reduceM_from (xnpv_step Date_parse (Fin x) dates basis)
        (map Fin xs) t (Fin acc) = Ok (Fin s) /\
      sg * acc <= sg * s.
Proof.
  intros Hx Hv Hb. induction xs as [|c rest IH]; intros Hpos t acc Hlen.
  - exists acc. split; [reflexivity | lra].
  - cbn [List.length] in Hlen. cbn [map reduceM_from]. unfold xnpv_step at 1.
    destruct (valid_dates_nth Date_parse dates 0 Hv) as [d0 [a [E0 Ea]]]; [lia|].
    destruct (valid_dates_nth Date_parse dates t Hv) as [d1 [b [E1 Eb]]]; [lia|].
    rewrite E0, E1.
    destruct (yearFrac_valid Date_parse d0 d1 basis a b Ea Eb Hb)
      as [yf [-> _]].
    cbn [bind]. change (1 + Fin x)%num with (Fin (1 + x)).
    destruct (Math_pow_pos (1 + x) yf) as [p [-> Hp]]; [lra|].
    cbn [num_div num_add]. rewrite Reqb_false by lra.
    destruct (IH (fun c' H => Hpos c' (or_intror H)) (S t) (acc + c / p))
      as [s [Hs Hle]]; [lia|].
    exists s. split; [exact Hs|].
    assert (Hc : 0 < sg * c) by (apply Hpos; now left).
    assert (Hq : 0 < sg * c / p) by now apply Rdiv_lt_0_compat.
    replace (sg * (acc + c / p)) with (sg * acc + sg * c / p) in Hle
      by (unfold Rdiv; ring).
    lra.
Qed.

(** The payoff of xirr at a rate above -1: the first flow is taken at year
    fraction 0, undiscounted, and the others add to its magnitude. *)
Lemma xnpv_payoff_signed (sg x c0 : R) (rest : list R) (dates : list string)
    (basis : string) :
  -1 < x -> 0 < sg * c0 -> (forall c, In c rest -> 0 < sg * c) ->
  List.length (c0 :: rest) = List.length dates ->
  valid_dates Date_parse dates -> supported_basis basis ->
  exists s : R,
    xnpv Date_parse (Fin x) (map Fin (c0 :: rest)) dates basis = Ok (Fin s) /\
    sg * c0 <= sg * s.
Proof.
  intros Hx H0 Hrest Hlen Hv Hb. unfold xnpv, reduceM.
  rewrite length_map, Hlen, Nat.eqb_refl. cbn [negb map reduceM_from].
  cbn [List.length] in Hlen. unfold xnpv_step at 1.
  destruct (valid_dates_nth Date_parse dates 0 Hv) as [d0 [a [E0 Ea]]]; [lia|].
  rewrite E0.
  destruct (yearFrac_valid Date_parse d0 d0 basis a a Ea Ea Hb)
    as [yf [-> Hyf]].
  cbn [bind]. rewrite (Hyf eq_refl), Math_pow_zero.
  cbn [num_div num_add]. rewrite Reqb_false by lra.
  destruct (xnpv_reduce_signed sg x dates basis Hx Hv Hb rest Hrest 1
              (0 + c0 / 1)) as [s [Hs Hle]]; [lia|].
  exists s. split; [exact Hs|].
  replace (0 + c0 / 1) with c0 in Hle by field. exact Hle.
Qed.

Lemma xirr_one_signed (sg c0 : R) (rest : list R) (dates : list string)
    (basis : string) (guess : R) :
  sg = 1 \/ sg = -1 ->
  (forall c, In c rest -> 0 < sg * c) ->
  1e-8 <= sg * c0 -> -1 < guess ->
  List.length (c0 :: rest) = List.length dates ->
  valid_dates Date_parse dates -> supported_basis basis ->
  xirr Date_parse (map Fin (c0 :: rest)) dates (Fin guess) basis
  = Throw RootNotBracketed.
Proof.
  intros Hsg Hrest Htol Hg Hlen Hv Hb.
  assert (H0 : 0 < sg * c0) by lra.
  assert (Hlen' : List.length (map Fin (c0 :: rest)) = List.length dates)
    by now rewrite length_map.
  unfold xirr, solve. rewrite newton_never_returns.
  - cbn [bind].
    destruct (xnpv_payoff_signed sg (-0.9) c0 rest dates basis)
      as [slo [-> Hlo]]; try assumption; [lra|].
    destruct (xnpv_payoff_signed sg 10 c0 rest dates basis)
      as [shi [-> Hhi]]; try assumption; [lra|].
    cbn [bind num_mul num_gtb num_ltb].
    rewrite Rltb_true; [reflexivity|].
    destruct Hsg as [-> | ->]; nra.
  - intros r [x [-> Hx]].
    destruct (xnpv_payoff_signed sg x c0 rest dates basis Hx H0 Hrest Hlen Hv Hb)
      as [s [Hs Hle]].
    destruct (xnpv_total Date_parse (Fin x + Fin 1e-6)%num _ dates basis Hlen' Hv Hb)
      as [above Ha].
    destruct (xnpv_total Date_parse (Fin x - Fin 1e-6)%num _ dates basis Hlen' Hv Hb)
      as [below Hbl].
    exists (Fin s), ((above - below) / (2 * Fin 1e-6))%num.
    split; [exact Hs|]. split; [now rewrite Ha, Hbl|].
    cbn [Math_abs num_ltb]. apply Rltb_false.
    pose proof (Rabs_sign sg s Hsg). lra.
  - exists guess. split; [reflexivity | assumption].
Qed.

(** C1, as amended.  On a series whose flows are all strictly positive or
    all strictly negative, with a guess above -1 (the default 0.1 is), irr
    fails with RootNotBracketed when the first flow is at least 1e-10 in
    magnitude, and xirr, on as many dates that parse and a supported basis,
    when it is at least 1e-8. *)
Theorem one_signed_series_not_bracketed (c0 : R) (rest : list R)
    (dates : list string) (basis : string) (guess : R) :
  (0 < c0 /\ Forall (fun c => 0 < c) rest) \/
  (c0 < 0 /\ Forall (fun c => c < 0) rest) ->
  -1 < guess ->
  (1e-10 <= Rabs c0 ->
   irr (map Fin (c0 :: rest)) (Fin guess) = Throw RootNotBracketed) /\
  (1e-8 <= Rabs c0 ->
   List.length (c0 :: rest) = List.length dates ->
   valid_dates Date_parse dates -> supported_basis basis ->
   xirr Date_parse (map Fin (c0 :: rest)) dates (Fin guess) basis
   = Throw RootNotBracketed).
Proof.
  intros Hsign Hg.
  assert (Hsg : exists sg, (sg = 1 \/ sg = -1) /\ Rabs c0 = sg * c0 /\
                  forall c, In c rest -> 0 < sg * c).
  { destruct Hsign as [[H0 Hr] | [H0 Hr]]; rewrite Forall_forall in Hr.
    - exists 1. split; [now left|]. split.
      + rewrite Rabs_pos_eq; lra.
      + intros c Hc. specialize (Hr c Hc). lra.
    - exists (-1). split; [now right|]. split.
      + rewrite Rabs_left; lra.
      + intros c Hc. specialize (Hr c Hc). lra. }
  destruct Hsg as [sg [Hsg [Habs Hrest]]]. rewrite Habs. split.
  - intros Htol. now apply irr_one_signed with (sg := sg).
  - intros Htol Hlen Hv Hb. now apply xirr_one_signed with (sg := sg).
Qed.

End XirrFacts.

Lemma one_signed_series_not_bracketed_witness :
  irr [Fin 100; Fin 50] default_guess = Throw RootNotBracketed /\
  xirr parse_iso_date [Fin 100; Fin 50] ["2025-01-01"; "2026-01-01"]%string
    default_guess default_basis = Throw RootNotBracketed.
Proof.
  assert (Hsign : (0 < 100 /\ Forall (fun c => 0 < c) [50]) \/
                  (100 < 0 /\ Forall (fun c => c < 0) [50])).
  { left. split; [lra|]. constructor; [lra | constructor]. }
  assert (Hg : -1 < 0.1) by lra.
  destruct (one_signed_series_not_bracketed parse_iso_date 100 [50]
              ["2025-01-01"; "2026-01-01"]%string default_basis 0.1 Hsign Hg)
    as [Hirr Hxirr].
  split.
  - apply Hirr. rewrite Rabs_pos_eq; lra.
  - apply Hxirr.
    + rewrite Rabs_pos_eq; lra.
    + reflexivity.
    + exact dates_2025_2026_valid.
    + left. reflexivity.
Defined.

(** C1 as stated fails on a series below the tolerance: the payoff of
    [1e-11] at the guess is 1e-11, under 1e-10, and the Newton phase returns
    the guess at once. *)
Lemma irr_tiny_positive_series_returns_guess :
  irr [Fin 1e-11] default_guess = Ok (Fin 0.1).
Proof.
  unfold irr, solve, default_guess.
  rewrite (newton_returns_at_once _ _ _ 49 _ (Fin 1e-11) (Fin 0)).
  - reflexivity.
  - unfold reduce. cbn [reduce_from]. unfold discount_step.
    change (1 + Fin 0.1)%num with (Fin (1 + 0.1)). rewrite Math_pow_nat.
    num_eval. fin_eq.
  - unfold reduce. cbn [reduce_from]. unfold irr_df_step.
    num_eval. fin_eq.
  - num_eval. reflexivity.
Qed.

(** ** What the two phases return *)

(** Whatever the payoff, a return of the Newton phase is a rate above -1
    at which the payoff is within the tolerance. *)
Lemma newton_returns_small (f df : number -> result number) (tol : number) :
  (forall r, exists y, f r = Ok y) ->
  (forall r, exists dy, df r = Ok dy) ->
  forall (n : nat) (r : number),
    above_minus_one r ->
    exists found,
      newton f df tol n r = Ok found /\
      forall r', found = Some r' ->
        above_minus_one r' /\
        exists y, f r' = Ok y /\ (Math_abs y <? tol)%num = true.
Proof.
  intros Hf Hdf. induction n as [|n IH]; intros r Hr.
  - exists None. split; [reflexivity | discriminate].
  - cbn [newton]. destruct (Hf r) as [y Hy]. destruct (Hdf r) as [dy Hdy].
    rewrite Hy, Hdy. cbn [bind].
    destruct (Math_abs y <? tol)%num eqn:Etol.
    + exists (Some r). split; [reflexivity|].
      intros r' E. injection E as <-. split; [assumption|].
      exists y. now split.
    + destruct ((dy === 0)%num || negb (Number_isFinite dy)).
      * exists None. split; [reflexivity | discriminate].
      * destruct (negb (Number_isFinite (r - y / dy)%num)
                  || (r - y / dy <=? -0.999999)%num) eqn:E.
        -- exists None. split; [reflexivity | discriminate].
        -- apply orb_false_elim in E. destruct E as [E1 E2].
           apply IH. apply above_floor; [|assumption].
           now destruct (Number_isFinite (r - y / dy)%num).
Qed.

(** A payoff that passes the tolerance test is finite. *)
Lemma small_payoff (y : number) (tol : R) :
  (Math_abs y <? Fin tol)%num = true -> exists s : R, y = Fin s /\ Rabs s < tol.
Proof.
  destruct y as [| | |s]; cbn [Math_abs num_ltb]; try discriminate.
  destruct (Rltb_spec (Rabs s) tol) as [H|H]; [|discriminate].
  intros _. now exists s.
Qed.

Lemma signed_inf_positive (x : R) :
  (0 <? signed_inf x)%num = true -> 0 < x.
Proof.
  unfold signed_inf. destruct (Rltb_spec 0 x) as [H|H]; [easy|].
  destruct (Rltb_spec x 0); discriminate.
Qed.

(** The bracket test [flo * fhi > 0] passes only on two payoffs of one
    strict sign. *)
Lemma product_positive (a b : number) :
  (a * b >? 0)%num = true -> same_strict_sign a b.
Proof.
  unfold num_gtb, same_strict_sign.
  destruct a as [| | |x], b as [| | |y]; cbn [num_mul]; intros H;
    try discriminate H;
    try (left; split; reflexivity);
    try (right; split; reflexivity).
  - apply signed_inf_positive in H. left. split; [reflexivity|].
    cbn [num_ltb]. now apply Rltb_true.
  - apply signed_inf_positive in H. right. split; [reflexivity|].
    cbn [num_ltb]. apply Rltb_true. lra.
  - apply signed_inf_positive in H. left. split; [|reflexivity].
    cbn [num_ltb]. now apply Rltb_true.
  - apply signed_inf_positive in H. right. split; [|reflexivity].
    cbn [num_ltb]. apply Rltb_true. lra.
  - cbn [num_ltb] in *.
    destruct (Rltb_spec 0 (x * y)) as [Hp|Hp]; [|discriminate].
    destruct (Rtotal_order x 0) as [Hx | [-> | Hx]].
    + right. assert (Hy : y < 0).
      { destruct (Rlt_dec y 0) as [Hy|Hy]; [exact Hy | exfalso].
        assert (x * y <= 0); [|lra].
        replace (x * y) with (- ((- x) * y)) by ring.
        assert (0 <= (- x) * y) by (apply Rmult_le_pos; lra). lra. }
      split; now apply Rltb_true.
    + rewrite Rmult_0_l in Hp. lra.
    + left. assert (Hy : 0 < y).
      { destruct (Rlt_dec 0 y) as [Hy|Hy]; [exact Hy | exfalso].
        assert (x * y <= 0); [|lra].
        replace (x * y) with (- (x * (- y))) by ring.
        assert (0 <= x * (- y)) by (apply Rmult_le_pos; lra). lra. }
      split; now apply Rltb_true.
Qed.

Section SolverSound.

Variables f df : number -> result number.

Hypothesis f_total : forall r, exists y, f r = Ok y.
Hypothesis df_total : forall r, exists dy, df r = Ok dy.

(** The bisection returns, and what it returns lies between its bounds:
    a midpoint is never outside the interval it halves. *)
Lemma bisect_in_bracket (tol : number) (k : nat) :
  forall (l h : R) (flo fhi : number),
    l <= h ->
    exists v : R,
      bisect f tol k (Fin l) (Fin h) flo fhi = Ok (Fin v) /\ l <= v <= h.
Proof.
  induction k as [|k IH]; intros l h flo fhi Hlh.
  - cbn [bisect num_add num_div]. rewrite Reqb_false by lra.
    exists ((l + h) / 2). split; [reflexivity | lra].
  - cbn [bisect num_add num_div]. rewrite Reqb_false by lra.
    destruct (f_total (Fin ((l + h) / 2))) as [fm ->]. cbn [bind].
    destruct (Math_abs fm <? tol)%num.
    + exists ((l + h) / 2). split; [reflexivity | lra].
    + destruct (flo * fm <=? 0)%num.
      * destruct (IH l ((l + h) / 2) flo fm) as [v [Hv Hin]]; [lra|].
        exists v. split; [exact Hv | lra].
      * destruct (IH ((l + h) / 2) h fm fhi) as [v [Hv Hin]]; [lra|].
        exists v. split; [exact Hv | lra].
Qed.

(** The solver fails only over a bracket whose ends have payoffs of one
    strict sign, and what it returns is a rate above -1 at which the payoff
    is within the tolerance, or a rate inside the bracket. *)
Lemma solve_sound (tol guess lo hi : R) :
  -1 < guess -> -1 < lo -> lo <= hi ->
  (solve f df (Fin tol) (Fin guess) (Fin lo) (Fin hi) = Throw RootNotBracketed /\
   one_signed_bracket f (Fin lo) (Fin hi))
  \/
  exists v : R,
    solve f df (Fin tol) (Fin guess) (Fin lo) (Fin hi) = Ok (Fin v) /\
    -1 < v /\
    (payoff_within f v tol \/ lo <= v <= hi).
Proof.
  intros Hg Hlo Hlh. unfold solve.
  destruct (newton_returns_small f df (Fin tol) f_total df_total 50 (Fin guess))
    as [found [-> Hfound]].
  { exists guess. split; [reflexivity | assumption]. }
  cbn [bind]. destruct found as [r|].
  - right. destruct (Hfound r eq_refl) as [[x [-> Hx]] [y [Hy Htol]]].
    exists x. split; [reflexivity|]. split; [assumption|]. left.
    destruct (small_payoff y tol Htol) as [s [-> Hs]]. now exists s.
  - destruct (f_total (Fin lo)) as [ylo Hflo].
    destruct (f_total (Fin hi)) as [yhi Hfhi].
    rewrite Hflo, Hfhi. cbn [bind].
    destruct (ylo * yhi >? 0)%num eqn:Eprod.
    + left. split; [reflexivity|]. exists ylo, yhi.
      split; [exact Hflo|]. split; [exact Hfhi|]. now apply product_positive.
    + right.
      destruct (bisect_in_bracket (Fin tol) 200 lo hi ylo yhi Hlh)
        as [v [Hv Hin]].
      exists v. split; [exact Hv|]. split; [lra|]. now right.
Qed.

End SolverSound.

(** ** bondPrice and bondYield *)



Lemma coupon_pv_total (c face y : number) (n : nat) :
  (Z.of_nat n < 9007199254740992)%Z ->
  exists pv, coupon_pv c face (num_of_nat n) y = Ok pv.
Proof.
  intros Hn. unfold coupon_pv. rewrite loop_bound_nat by assumption.
  now eexists.
Qed.




(** ** No caller reports an invalid date *)

Lemma bind_not_Throw {A B : Type} (m : result A) (k : A -> result B)
    (e : error) :
  m <> Throw e -> (forall a, k a <> Throw e) -> bind m k <> Throw e.
Proof.
  intros Hm Hk. destruct m as [a|e'|]; cbn [bind].
  - apply Hk.
  - intros H. injection H as ->. now apply Hm.
  - discriminate.
Qed.

Lemma newton_not_Throw (f df : number -> result number) (tol : number)
    (e : error) :
  (forall r, f r <> Throw e) -> (forall r, df r <> Throw e) ->
  forall (n : nat) (r : number), newton f df tol n r <> Throw e.
Proof.
  intros Hf Hdf. induction n as [|n IH]; intros r; cbn [newton].
  - discriminate.
  - apply bind_not_Throw; [apply Hf|]. intros y.
    apply bind_not_Throw; [apply Hdf|]. intros dy.
    destruct (Math_abs y <? tol)%num; [discriminate|].
    destruct ((dy === 0)%num || negb (Number_isFinite dy)); [discriminate|].
    destruct (negb (Number_isFinite (r - y / dy)%num)
              || (r - y / dy <=? -0.999999)%num); [discriminate | apply IH].
Qed.

Lemma bisect_not_Throw (f : number -> result number) (tol : number)
    (e : error) :
  (forall r, f r <> Throw e) ->
  forall (n : nat) (lo hi flo fhi : number),
    bisect f tol n lo hi flo fhi <> Throw e.
Proof.
  intros Hf. induction n as [|n IH]; intros lo hi flo fhi; cbn [bisect].
  - discriminate.
  - apply bind_not_Throw; [apply Hf|]. intros fm.
    destruct (Math_abs fm <? tol)%num; [discriminate|].
    destruct (flo * fm <=? 0)%num; apply IH.
Qed.

(** The solver throws what its payoff throws, or RootNotBracketed. *)
Lemma solve_not_Throw (f df : number -> result number)
    (tol guess lo hi : number) (e : error) :
  e <> RootNotBracketed ->
  (forall r, f r <> Throw e) -> (forall r, df r <> Throw e) ->
  solve f df tol guess lo hi <> Throw e.
Proof.
  intros He Hf Hdf. unfold solve.
  apply bind_not_Throw; [now apply newton_not_Throw|].
  intros [r|]; [discriminate|].
  apply bind_not_Throw; [apply Hf|]. intros flo.
  apply bind_not_Throw; [apply Hf|]. intros fhi.
  destruct (flo * fhi >? 0)%num.
  - intros H. injection H as H. now apply He.
  - now apply bisect_not_Throw.
Qed.

Section NoInvalidDate.

Variable Date_parse : string -> option Z.

Lemma xnpv_never_InvalidDate (rate : number) (cashflows : list number)
    (dates : list string) (basis : string) :
  xnpv Date_parse rate cashflows dates basis <> Throw InvalidDate.
Proof.
  unfold xnpv.
  destruct (negb (Nat.eqb (List.length cashflows) (List.length dates)));
    [discriminate|].
  unfold reduceM. generalize 0%nat at 1. generalize (Fin 0).
  induction cashflows as [|cf rest IH]; intros acc t; cbn [reduceM_from].
  - discriminate.
  - apply bind_not_Throw; [|intros; apply IH].
    unfold xnpv_step.
    apply bind_not_Throw; [apply yearFrac_never_InvalidDate | discriminate].
Qed.

Lemma xirr_never_InvalidDate (cashflows : list number) (dates : list string)
    (guess : number) (basis : string) :
  xirr Date_parse cashflows dates guess basis <> Throw InvalidDate.
Proof.
  unfold xirr. apply solve_not_Throw.
  - discriminate.
  - intros r. apply xnpv_never_InvalidDate.
  - intros r.
    apply bind_not_Throw; [apply xnpv_never_InvalidDate|]. intros a.
    apply bind_not_Throw; [apply xnpv_never_InvalidDate | discriminate].
Qed.

End NoInvalidDate.

(** With a date that does not parse xnpv returns NaN. *)
Example xnpv_invalid_date_is_NaN :
  xnpv parse_iso_date 0.1 [Fin (-100); Fin 110]
    ["2025-01-01"; "not-a-date"]%string "ACT/365" = Ok NaN.
Proof.
  unfold xnpv, reduceM. cbn [List.length Nat.eqb negb reduceM_from].
  unfold xnpv_step. cbn [nth_error].
  rewrite (yearFrac_365_days parse_iso_date "2025-01-01" "2025-01-01"
             1735689600000%Z 0) by reflexivity.
  rewrite (yearFrac_unparseable_NaN parse_iso_date (Some "2025-01-01"%string)
             (Some "not-a-date"%string) "ACT/365");
    [| right; reflexivity | left; reflexivity].
  cbn [bind]. change (1 + Fin 0.1)%num with (Fin (1 + 0.1)).
  rewrite Math_pow_nat. unfold Math_pow. num_eval. reflexivity.
Qed.

(** ** The parser of the examples *)

Example parse_2025_01_01 : parse_iso_date "2025-01-01" = Some 1735689600000%Z.
Proof. reflexivity. Qed.

Example parse_2026_01_01 : parse_iso_date "2026-01-01" = Some 1767225600000%Z.
Proof. reflexivity. Qed.

Example parse_not_a_date : parse_iso_date "not-a-date" = None.
Proof. reflexivity. Qed.

Example parse_february_30 : parse_iso_date "2025-02-30" = None.
Proof. reflexivity. Qed.

Example civil_of_2025_12_31 :
  civil_from_days (days_from_civil 2025 12 31) = (2025, 12, 31)%Z.
Proof. reflexivity. Qed.

Example civil_of_epoch : civil_from_days 0 = (1970, 1, 1)%Z.
Proof. reflexivity. Qed.

(** The 30E/360 fraction from 31 January to 31 March 2025: both days of
    month are capped at 30 and the two months count 60 days. *)
Example yearFrac_30E360_month_ends :
  yearFrac parse_iso_date (Some "2025-01-31"%string) (Some "2025-03-31"%string)
    "30E/360" = Ok (Fin (60 / 360)).
Proof.
  unfold yearFrac, new_Date.
  change (parse_iso_date "2025-01-31") with (Some 1738281600000%Z).
  change (parse_iso_date "2025-03-31") with (Some 1743379200000%Z).
  rewrite !Number_isNaN_Date. cbn [orb].
  change (String.eqb "30E/360" "ACT/365") with false.
  change (String.eqb "30E/360" "ACT/360") with false.
  change (String.eqb "30E/360" "30E/360") with true. cbv iota zeta.
  unfold getUTCFullYear, getUTCMonth, getUTCDate, date_field, Math_min.
  cbn [time_value].
  change (civil_from_days (1738281600000 / msPerDay)) with (2025, 1, 31)%Z.
  change (civil_from_days (1743379200000 / msPerDay)) with (2025, 3, 31)%Z.
  cbn [fst snd]. rewrite !minus_IZR. num_eval. fin_eq.
Qed.

(** The ACT/365 fraction of the leap year 2024 counts its 366 days. *)
Example yearFrac_ACT365_leap_year :
  yearFrac parse_iso_date (Some "2024-01-01"%string) (Some "2025-01-01"%string)
    "ACT/365" = Ok (Fin (366 / 365)).
Proof.
  unfold yearFrac, new_Date.
  change (parse_iso_date "2024-01-01") with (Some 1704067200000%Z).
  change (parse_iso_date "2025-01-01") with (Some 1735689600000%Z).
  rewrite !Number_isNaN_Date. cbn [orb].
  change (String.eqb "ACT/365" "ACT/365") with true. cbv iota.
  cbn [Date_valueOf time_value]. num_eval. fin_eq.
Qed.

(** * Further properties of the formulas

    Each is stated on the operations the code performs, in the order it
    performs them: a sum is the running sum of the loop and a quotient is
    the quotient the code forms. *)

(** ** Rate 0 *)

Lemma Math_pow_base_1 (e : R) : Math_pow (Fin 1) (Fin e) = Fin 1.
Proof.
  unfold Math_pow.
  destruct (Reqb_spec e 0) as [_|_]; [reflexivity|].
  rewrite (Reqb_false 1) by lra.
  destruct (R_integer e) as [n|].
  - apply Fin_eq. apply powerRZ_R1.
  - rewrite Rltb_true by lra. apply Fin_eq.
    unfold Rpower. now rewrite ln_1, Rmult_0_r, exp_0.
Qed.

Lemma one_plus_0 : (1 + Fin 0)%num = Fin 1.
Proof. cbn [num_add]. apply Fin_eq. lra. Qed.

Lemma reduce_rate_0 (l : list number) :
  forall (t : nat) (acc : number),
    reduce_from (discount_step (Fin 0)) l t acc = fold_left num_add l acc.
Proof.
  induction l as [|cf rest IH]; intros t acc; cbn [reduce_from fold_left].
  - reflexivity.
  - rewrite IH. unfold discount_step, num_of_nat.
    now rewrite one_plus_0, Math_pow_base_1, num_div_1.
Qed.

Section RateZero.

Variable Date_parse : string -> option Z.

Lemma xnpv_reduce_rate_0 (dates : list string) (basis : string) :
  valid_dates Date_parse dates -> supported_basis basis ->
  forall (l : list number) (t : nat) (acc : number),
    (t + List.length l <= List.length dates)%nat ->
    reduceM_from (xnpv_step Date_parse (Fin 0) dates basis) l t acc
    = Ok (fold_left num_add l acc).
Proof.
  intros Hv Hb. induction l as [|cf rest IH]; intros t acc Hlen.
  - reflexivity.
  - cbn [List.length] in Hlen. cbn [reduceM_from fold_left].
    unfold xnpv_step at 1.
    destruct (valid_dates_nth Date_parse dates 0 Hv) as [d0 [a [E0 Ea]]]; [lia|].
    destruct (valid_dates_nth Date_parse dates t Hv) as [d1 [b [E1 Eb]]]; [lia|].
    rewrite E0, E1.
    destruct (yearFrac_valid Date_parse d0 d1 basis a b Ea Eb Hb)
      as [yf [-> _]].
    cbn [bind]. rewrite one_plus_0, Math_pow_base_1, num_div_1.
    apply IH. lia.
Qed.

(** X2.  At rate 0 nothing is discounted: npv returns the plain sum of the
    flows, added one by one in the order of the array, and so does xnpv on
    as many dates that parse, under any of the supported bases. *)
Theorem rate_0_is_plain_sum (cashflows : list number) (dates : list string)
    (basis : string) :
  npv (Fin 0) cashflows = Ok (plain_sum cashflows) /\
  (List.length cashflows = List.length dates ->
   valid_dates Date_parse dates -> supported_basis basis ->
   xnpv Date_parse (Fin 0) cashflows dates basis = Ok (plain_sum cashflows)).
Proof.
  split.
  - unfold npv, reduce, plain_sum. cbn [Number_isFinite negb].
    now rewrite reduce_rate_0.
  - intros Hlen Hv Hb. unfold xnpv, reduceM, plain_sum.
    rewrite Hlen, Nat.eqb_refl. cbn [negb].
    apply xnpv_reduce_rate_0; [assumption | assumption | lia].
Qed.

End RateZero.

Lemma rate_0_is_plain_sum_witness :
  xnpv parse_iso_date (Fin 0) [Fin (-100); Fin 110]
    ["2025-01-01"; "2026-01-01"]%string "ACT/360"
  = Ok (plain_sum [Fin (-100); Fin 110]).
Proof.
  apply (rate_0_is_plain_sum parse_iso_date [Fin (-100); Fin 110]
           ["2025-01-01"; "2026-01-01"]%string "ACT/360").
  - reflexivity.
  - exact dates_2025_2026_valid.
  - right. left. reflexivity.
Defined.

(** ** Annuities over no period *)

Lemma neg_zero : (- Fin 0)%num = Fin 0.
Proof. cbn [num_neg]. apply Fin_eq. lra. Qed.

Lemma one_minus_one : (Fin 1 - Fin 1)%num = Fin 0.
Proof. cbn [num_sub num_neg num_add]. apply Fin_eq. lra. Qed.

Lemma rate_divides_zero (rate : number) :
  rate <> NaN -> (rate === 0)%num = false -> divides_zero rate.
Proof.
  intros Hnan Hz. split; [assumption|]. intros ->.
  cbn [num_eqb] in Hz. now rewrite Reqb_true in Hz.
Qed.

(** X3.  An annuity of no period is worth nothing: for a finite payment
    and every rate other than NaN (0, -1 and the infinities included),
    annuityPV and annuityFV return 0 at n = 0. *)
Theorem annuity_of_no_period (rate : number) (pmt : R) :
  rate <> NaN ->
  annuityPV rate 0 pmt = Fin 0 /\ annuityFV rate 0 pmt = Fin 0.
Proof.
  intros Hnan. unfold annuityPV, annuityFV.
  destruct (rate === 0)%num eqn:Ez.
  - split; apply zero_mul_r, is_finite_Fin.
  - pose proof (rate_divides_zero rate Hnan Ez) as Hd.
    rewrite neg_zero, !Math_pow_zero, one_minus_one.
    rewrite (zero_mul_r (Fin pmt)) by apply is_finite_Fin.
    split; now apply zero_div.
Qed.

Lemma annuity_of_no_period_witness :
  annuityPV 0.08 0 100 = Fin 0 /\ annuityFV 0.08 0 100 = Fin 0.
Proof.
  apply (annuity_of_no_period 0.08 100). discriminate.
Defined.

(** ** A bond without coupons *)

(** The coupon loop adds nothing when the coupon is 0. *)
Lemma for_coupons_zero (y : number) (k : nat) :
  (forall t, (1 <= t <= k)%nat ->
     divides_zero (Math_pow (1 + y) (num_of_nat t))) ->
  for_1_to k (fun pv t => (pv + Fin 0 / Math_pow (1 + y) (num_of_nat t))%num)
    (Fin 0) = Fin 0.
Proof.
  induction k as [|k IH]; intros Hall.
  - reflexivity.
  - cbn [for_1_to]. rewrite IH by (intros t Ht; apply Hall; lia).
    rewrite zero_div by (apply Hall; lia). apply num_add_0_l.
Qed.

Lemma bondPrice_discounted_face (face freq : R) (yieldRate years : number)
    (n : nat) :
  freq <> 0 ->
  Math_round (years * freq) = num_of_nat n ->
  (Z.of_nat n < 9007199254740992)%Z ->
  (forall t, (1 <= t <= n)%nat ->
     divides_zero (Math_pow (1 + yieldRate / freq) (num_of_nat t))) ->
  bondPrice face 0 yieldRate years freq
  = Ok (face / Math_pow (1 + yieldRate / freq) (num_of_nat n))%num.
Proof.
  intros Hfreq Hround Hn Hall. unfold bondPrice, coupon_pv.
  rewrite Hround, loop_bound_nat by assumption.
  rewrite (zero_mul_l (Fin face)) by apply is_finite_Fin.
  rewrite (zero_div (Fin freq)) by now apply divides_zero_Fin.
  rewrite for_coupons_zero by assumption.
  now rewrite num_add_0_l.
Qed.

(** X5.  The price of a bond without coupons is its face value discounted
    over the m = round(years * freq) periods: bondPrice returns
    face / (1 + yieldRate/freq)^m, the quotient the code forms, when the
    discount factor of every period up to m is a number other than 0; with
    no period at all it returns the face value. *)
Theorem bondPrice_zero_coupon (face freq : R) (yieldRate years : number)
    (n : nat) :
  freq <> 0 ->
  Math_round (years * freq) = num_of_nat n ->
  (Z.of_nat n < 9007199254740992)%Z ->
  (forall t, (1 <= t <= n)%nat ->
     divides_zero (Math_pow (1 + yieldRate / freq) (num_of_nat t))) ->
  bondPrice face 0 yieldRate years freq
  = Ok (face / Math_pow (1 + yieldRate / freq) (num_of_nat n))%num /\
  (n = 0%nat -> bondPrice face 0 yieldRate years freq = Ok (Fin face)).
Proof.
  intros Hfreq Hround Hn Hall.
  pose proof (bondPrice_discounted_face face freq yieldRate years n
                Hfreq Hround Hn Hall) as H.
  split; [exact H|].
  intros ->. rewrite H. unfold num_of_nat. cbn [INR].
  now rewrite Math_pow_zero, num_div_1.
Qed.

Lemma bondPrice_zero_coupon_witness :
  bondPrice 1000 0 0.06 10 2
  = Ok (1000 / Math_pow (1 + 0.06 / 2) (num_of_nat 20))%num.
Proof.
  apply (bondPrice_zero_coupon 1000 2 0.06 10 20).
  - lra.
  - cbn [num_mul]. unfold Math_round, num_of_nat. rewrite Zfloor_20_half.
    now rewrite INR_IZR_INZ.
  - lia.
  - intros t _. rewrite one_plus_ratio by lra.
    apply Math_pow_divides_zero. lra.
Defined.

Lemma num_of_nat_succ_finite (t : nat) : is_finite (num_of_nat t + 1)%num.
Proof. unfold num_of_nat. cbn [num_add]. apply is_finite_Fin. Qed.

Lemma convexity_step_zero_coupon (face y : number) (n t : nat) :
  (t < n)%nat ->
  divides_zero (Math_pow (1 + y) (num_of_nat t)) ->
  convexity_step (Fin 0) face (num_of_nat n) y (Fin 0) t = Fin 0.
Proof.
  intros Ht Hd. unfold convexity_step.
  rewrite num_of_nat_ltb. apply Nat.ltb_lt in Ht. rewrite Ht.
  rewrite (zero_mul_l (num_of_nat t)) by apply is_finite_Fin.
  rewrite (zero_mul_l _ (num_of_nat_succ_finite t)).
  rewrite (zero_div _ Hd). apply num_add_0_l.
Qed.

Lemma for_convexity_zero_coupon (face y : number) (n k : nat) :
  (k < n)%nat ->
  (forall t, (1 <= t <= k)%nat ->
     divides_zero (Math_pow (1 + y) (num_of_nat t))) ->
  for_1_to k (convexity_step (Fin 0) face (num_of_nat n) y) (Fin 0) = Fin 0.
Proof.
  induction k as [|k IH]; intros Hk Hall.
  - reflexivity.
  - cbn [for_1_to]. rewrite IH; [| lia | intros t Ht; apply Hall; lia].
    apply convexity_step_zero_coupon; [lia | apply Hall; lia].
Qed.

(** X9.  In the convexity of a bond without coupons only the payment of
    the last of the m = round(years * freq) >= 1 periods counts: with
    disc = (1 + yieldRate/freq)^m and price the value bondPrice returns,
    convexity returns
    (face * m * (m + 1) / disc) / (price * (1 + yieldRate/freq)^2 * freq^2),
    each operation being the one the code performs, when the discount
    factor of every period before m is a number other than 0. *)
Theorem convexity_zero_coupon (face freq : R) (yieldRate years : number)
    (n : nat) :
  freq <> 0 ->
  Math_round (years * freq) = num_of_nat n ->
  (1 <= n)%nat -> (Z.of_nat n < 9007199254740992)%Z ->
  (forall t, (1 <= t < n)%nat ->
     divides_zero (Math_pow (1 + yieldRate / freq) (num_of_nat t))) ->
  exists price : number,
    bondPrice face 0 yieldRate years freq = Ok price /\
    convexity face 0 yieldRate years freq
    = Ok (let y := (yieldRate / freq)%num in
          let disc := Math_pow (1 + y) (num_of_nat n) in
          (face * num_of_nat n * (num_of_nat n + 1) / disc)
          / (price * Math_pow (1 + y) 2 * Math_pow freq 2))%num.
Proof.
  intros Hfreq Hround Hn1 Hn Hall.
  assert (Hprice : exists price,
             bondPrice face 0 yieldRate years freq = Ok price).
  { unfold bondPrice. rewrite Hround. now apply coupon_pv_total. }
  destruct Hprice as [price Hprice]. exists price. split; [exact Hprice|].
  unfold convexity. rewrite Hprice.
  rewrite Hround, loop_bound_nat by assumption.
  rewrite (zero_mul_l (Fin face)) by apply is_finite_Fin.
  rewrite (zero_div (Fin freq)) by now apply divides_zero_Fin.
  destruct n as [|k]; [lia|]. cbn [for_1_to bind].
  rewrite for_convexity_zero_coupon; [| lia | intros t Ht; apply Hall; lia].
  unfold convexity_step. rewrite num_of_nat_ltb, Nat.ltb_irrefl.
  now rewrite !num_add_0_l.
Qed.

Lemma convexity_zero_coupon_witness :
  exists price : number,
    bondPrice 1000 0 0.06 10 2 = Ok price /\
    convexity 1000 0 0.06 10 2
    = Ok (let y := (0.06 / 2)%num in
          let disc := Math_pow (1 + y) (num_of_nat 20) in
          (1000 * num_of_nat 20 * (num_of_nat 20 + 1) / disc)
          / (price * Math_pow (1 + y) 2 * Math_pow 2 2))%num.
Proof.
  apply (convexity_zero_coupon 1000 2 0.06 10 20).
  - lra.
  - cbn [num_mul]. unfold Math_round, num_of_nat. rewrite Zfloor_20_half.
    now rewrite INR_IZR_INZ.
  - lia.
  - lia.
  - intros t _. rewrite one_plus_ratio by lra.
    apply Math_pow_divides_zero. lra.
Defined.

(** ** paybackPeriod *)

Lemma running_sum_next (pre : list number) (c : number) (rest : list number) :
  running_sum (pre ++ c :: rest) (S (List.length pre))
  = (running_sum (pre ++ c :: rest) (List.length pre) + c)%num.
Proof. cbn [running_sum]. now rewrite nth_middle. Qed.

(** The value returned from inside the loop, where the running total
    [prev] was 0 or not yet at 0 and the flow [c] brings it to 0 or above:
    a finite number, which lies in [t - 1, t] after a negative total. *)
Lemma payback_value (prev c : number) (t : nat) :
  prev = Fin 0 \/ (prev >=? 0)%num = false ->
  (prev + c >=? 0)%num = true ->
  exists x : R,
    (num_of_nat t - 1
     + (if negb (c === 0)%num then (- prev / c)%num else Fin 0))%num = Fin x /\
    ((prev >=? 0)%num = false ->
     (c === 0)%num = false /\ INR t - 1 <= x <= INR t).
Proof.
  unfold num_geb, num_of_nat.
  destruct prev as [| | |p]; intros Hprev Hsum.
  - destruct c; discriminate Hsum.
  - destruct Hprev as [Hprev|Hprev]; discriminate Hprev.
  - destruct c; discriminate Hsum.
  - destruct c as [| | |x]; try discriminate Hsum.
    + eexists. split; [cbn; reflexivity|]. intros _.
      split; [reflexivity | lra].
    + cbn [num_add num_leb num_ltb] in Hsum.
      destruct (Rltb_spec (p + x) 0) as [Hs|Hs]; [discriminate|].
      cbn [num_eqb]. destruct (Reqb_spec x 0) as [Hx|Hx]; cbn [negb].
      * eexists. split; [cbn; reflexivity|].
        cbn [num_leb num_ltb]. intros Hp.
        destruct (Rltb_spec p 0) as [Hp0|Hp0]; [|discriminate]. lra.
      * cbn [num_neg num_div]. rewrite (Reqb_false x) by assumption.
        eexists. split; [cbn; reflexivity|].
        cbn [num_leb num_ltb]. intros Hp.
        destruct (Rltb_spec p 0) as [Hp0|Hp0]; [|discriminate].
        split; [reflexivity|].
        assert (Hfrac : 0 <= - p / x <= 1).
        { split.
          - apply Rmult_le_pos; [lra|]. left. apply Rinv_0_lt_compat. lra.
          - apply Rmult_le_reg_r with (r := x); [lra|].
            unfold Rdiv. rewrite Rmult_assoc, Rinv_l by lra. lra. }
        lra.
Qed.

(** The scan from the index after [pre]: it runs off the end over running
    totals that never reach 0, or stops at the first index [j] whose total
    does, with the value of the return statement. *)
Lemma payback_scan (cashflows : list number) :
  forall suf pre : list number,
    cashflows = pre ++ suf ->
    (paybackPeriod_from suf (List.length pre)
       (running_sum cashflows (List.length pre)) = PInf /\
     forall k, (List.length pre < k <= List.length cashflows)%nat ->
               (running_sum cashflows k >=? 0)%num = false)
    \/
    exists j : nat,
      (List.length pre <= j < List.length cashflows)%nat /\
      (forall k, (List.length pre < k <= j)%nat ->
                 (running_sum cashflows k >=? 0)%num = false) /\
      (running_sum cashflows (S j) >=? 0)%num = true /\
      paybackPeriod_from suf (List.length pre)
        (running_sum cashflows (List.length pre))
      = payback_at cashflows j.
Proof.
  induction suf as [|c rest IH]; intros pre Hcs.
  - left. split; [reflexivity|].
    intros k Hk. rewrite Hcs, app_nil_r in Hk. lia.
  - assert (Hlen : List.length cashflows
                   = (List.length pre + S (List.length rest))%nat)
      by (rewrite Hcs, length_app; reflexivity).
    assert (Hnth : nth (List.length pre) cashflows NaN = c)
      by (rewrite Hcs; apply nth_middle).
    assert (Hnext : running_sum cashflows (S (List.length pre))
                    = (running_sum cashflows (List.length pre) + c)%num)
      by (rewrite Hcs; apply running_sum_next).
    cbn [paybackPeriod_from]. rewrite <- Hnext.
    destruct (running_sum cashflows (S (List.length pre)) >=? 0)%num eqn:E.
    + right. exists (List.length pre). split; [lia|]. split.
      * intros k Hk. lia.
      * split; [exact E|]. unfold payback_at. now rewrite Hnth.
    + specialize (IH (pre ++ [c])).
      rewrite length_app in IH. cbn [List.length] in IH.
      replace (List.length pre + 1)%nat with (S (List.length pre)) in IH by lia.
      destruct IH as [[Hinf Hall] | [j [Hj [Hall [Hcross Hres]]]]].
      * now rewrite <- app_assoc.
      * left. split; [exact Hinf|].
        intros k Hk.
        destruct (Nat.eq_dec k (S (List.length pre))) as [->|Hne];
          [exact E | apply Hall; lia].
      * right. exists j. split; [lia|]. split; [|split; assumption].
        intros k Hk.
        destruct (Nat.eq_dec k (S (List.length pre))) as [->|Hne];
          [exact E | apply Hall; lia].
Qed.

(** What paybackPeriod returns: Infinity over running totals that never
    reach 0, and otherwise the value of the return statement at the first
    index whose total does. *)
Lemma paybackPeriod_cases (cashflows : list number) :
  (paybackPeriod cashflows = PInf /\
   forall k, (1 <= k <= List.length cashflows)%nat ->
             (running_sum cashflows k >=? 0)%num = false)
  \/
  exists j : nat,
    (j < List.length cashflows)%nat /\
    (forall k, (1 <= k <= j)%nat ->
               (running_sum cashflows k >=? 0)%num = false) /\
    (running_sum cashflows (S j) >=? 0)%num = true /\
    paybackPeriod cashflows = payback_at cashflows j.
Proof.
  destruct (payback_scan cashflows cashflows [] eq_refl)
    as [[Hinf Hall] | [j [Hj [Hall [Hcross Hres]]]]];
    cbn [List.length] in *.
  - left. split; [exact Hinf|]. intros k Hk. apply Hall. lia.
  - right. exists j. split; [lia|]. split; [|split; assumption].
    intros k Hk. apply Hall. lia.
Qed.

(** X10.  When the running total of paybackPeriod first reaches 0 or more
    at an index j >= 1, the function returns
    j - 1 + (- total before period j) / (flow of period j), the operations
    being the ones of the code, and that value is finite and lies between
    j - 1 and j. *)
Theorem paybackPeriod_interpolates (cashflows : list number) (j : nat) :
  (1 <= j < List.length cashflows)%nat ->
  (forall k, (1 <= k <= j)%nat ->
             (running_sum cashflows k >=? 0)%num = false) ->
  (running_sum cashflows (S j) >=? 0)%num = true ->
  paybackPeriod cashflows
  = (num_of_nat j - 1 + - running_sum cashflows j / nth j cashflows NaN)%num /\
  exists x : R, paybackPeriod cashflows = Fin x /\ INR j - 1 <= x <= INR j.
Proof.
  intros Hj Hneg Hcross.
  assert (Hprev : (running_sum cashflows j >=? 0)%num = false)
    by (apply Hneg; lia).
  assert (Hres : paybackPeriod cashflows = payback_at cashflows j).
  { destruct (paybackPeriod_cases cashflows)
      as [[_ Hall] | [j' [Hj' [Hneg' [Hcross' Hres]]]]].
    - rewrite Hall in Hcross by lia. discriminate.
    - destruct (Nat.lt_trichotomy j' j) as [H|[H|H]].
      + rewrite Hneg in Hcross' by lia. discriminate.
      + now subst j'.
      + rewrite Hneg' in Hcross by lia. discriminate. }
  rewrite Hres. unfold payback_at.
  destruct (payback_value (running_sum cashflows j) (nth j cashflows NaN) j)
    as [x [Hx Hin]]; [now right | exact Hcross |].
  destruct (Hin Hprev) as [Hc Hbounds].
  rewrite Hc in *. cbn [negb] in *.
  split; [reflexivity|]. now exists x.
Qed.

Lemma paybackPeriod_interpolates_witness :
  paybackPeriod [Fin (-100); Fin 30; Fin 40; Fin 50]
  = (num_of_nat 3 - 1
     + - running_sum [Fin (-100); Fin 30; Fin 40; Fin 50] 3
       / nth 3 [Fin (-100); Fin 30; Fin 40; Fin 50] NaN)%num /\
  exists x : R,
    paybackPeriod [Fin (-100); Fin 30; Fin 40; Fin 50] = Fin x /\
    INR 3 - 1 <= x <= INR 3.
Proof.
  apply (paybackPeriod_interpolates [Fin (-100); Fin 30; Fin 40; Fin 50] 3).
  - cbn [List.length]. lia.
  - intros k Hk.
    destruct k as [|[|[|[|k]]]]; try lia;
      cbn [running_sum nth]; num_eval; reflexivity.
  - cbn [running_sum nth]. num_eval. reflexivity.
Defined.

(** X11.  paybackPeriod returns Infinity exactly when the outlay is never
    recovered: when none of the running totals of the loop reaches 0. *)
Theorem paybackPeriod_Infinity_iff (cashflows : list number) :
  paybackPeriod cashflows = PInf <->
  forall k, (1 <= k <= List.length cashflows)%nat ->
            (running_sum cashflows k >=? 0)%num = false.
Proof.
  destruct (paybackPeriod_cases cashflows)
    as [[Hinf Hall] | [j [Hj [Hneg [Hcross Hres]]]]].
  - split; intros _; assumption.
  - assert (Hprev : running_sum cashflows j = Fin 0 \/
                    (running_sum cashflows j >=? 0)%num = false).
    { destruct j as [|j]; [now left | right; apply Hneg; lia]. }
    destruct (payback_value (running_sum cashflows j) (nth j cashflows NaN) j
                Hprev Hcross) as [x [Hx _]].
    split.
    + intros Hinf. rewrite Hres in Hinf. unfold payback_at in Hinf.
      cbv zeta in Hinf. rewrite Hx in Hinf. discriminate.
    + intros Hall. rewrite Hall in Hcross by lia. discriminate.
Qed.

Lemma paybackPeriod_Infinity_iff_witness :
  paybackPeriod [Fin (-100); Fin 30; Fin 40] = PInf.
Proof.
  apply (paybackPeriod_Infinity_iff [Fin (-100); Fin 30; Fin 40]).
  intros k Hk. cbn [List.length] in Hk.
  destruct k as [|[|[|[|k]]]]; try lia;
    cbn [running_sum nth]; num_eval; reflexivity.
Defined.

(** ** The outcomes of xnpv *)

Section XnpvOutcomes.

Variable Date_parse : string -> option Z.

Lemma yearFrac_supported_total (d0 d1 : option string) (basis : string) :
  supported_basis basis ->
  exists v, yearFrac Date_parse d0 d1 basis = Ok v.
Proof.
  intros Hb. unfold yearFrac. rewrite !Number_isNaN_Date. cbn [orb].
  destruct Hb as [-> | [-> | ->]].
  - change (String.eqb "ACT/365" "ACT/365") with true. now eexists.
  - change (String.eqb "ACT/360" "ACT/365") with false.
    change (String.eqb "ACT/360" "ACT/360") with true. now eexists.
  - change (String.eqb "30E/360" "ACT/365") with false.
    change (String.eqb "30E/360" "ACT/360") with false.
    change (String.eqb "30E/360" "30E/360") with true. now eexists.
Qed.

Lemma xnpv_reduce_supported (rate : number) (dates : list string)
    (basis : string) :
  supported_basis basis ->
  forall (l : list number) (t : nat) (acc : number),
    exists v, reduceM_from (xnpv_step Date_parse rate dates basis) l t acc = Ok v.
Proof.
  intros Hb. induction l as [|cf rest IH]; intros t acc.
  - now exists acc.
  - cbn [reduceM_from]. unfold xnpv_step at 1.
    destruct (yearFrac_supported_total (nth_error dates 0) (nth_error dates t)
                basis Hb) as [yf ->].
    cbn [bind]. apply IH.
Qed.

(** X14.  The outcomes of xnpv, whatever the rate and whether or not the
    dates parse: LengthMismatch when the two arrays differ in length;
    otherwise UnsupportedBasis when there is a flow and the basis is none of
    the three; otherwise a number.  No other failure occurs. *)
Theorem xnpv_outcomes (rate : number) (cashflows : list number)
    (dates : list string) (basis : string) :
  (List.length cashflows <> List.length dates ->
   xnpv Date_parse rate cashflows dates basis = Throw LengthMismatch) /\
  (List.length cashflows = List.length dates -> cashflows <> [] ->
   ~ supported_basis basis ->
   xnpv Date_parse rate cashflows dates basis = Throw UnsupportedBasis) /\
  (List.length cashflows = List.length dates ->
   cashflows = [] \/ supported_basis basis ->
   exists v, xnpv Date_parse rate cashflows dates basis = Ok v).
Proof.
  unfold xnpv, reduceM. split; [|split].
  - intros Hne. apply Nat.eqb_neq in Hne. now rewrite Hne.
  - intros Hlen Hnil Hb. rewrite Hlen, Nat.eqb_refl. cbn [negb].
    destruct cashflows as [|cf rest]; [contradiction|].
    cbn [reduceM_from]. unfold xnpv_step at 1.
    now rewrite yearFrac_unsupported.
  - intros Hlen Hcase. rewrite Hlen, Nat.eqb_refl. cbn [negb].
    destruct Hcase as [-> | Hb].
    + now eexists.
    + now apply xnpv_reduce_supported.
Qed.

End XnpvOutcomes.

Lemma xnpv_outcomes_witness :
  exists v,
    xnpv parse_iso_date NaN [Fin (-100); Fin 110]
      ["not-a-date"; "2026-01-01"]%string "30E/360" = Ok v.
Proof.
  apply (xnpv_outcomes parse_iso_date NaN [Fin (-100); Fin 110]
           ["not-a-date"; "2026-01-01"]%string "30E/360").
  - reflexivity.
  - right. right. right. reflexivity.
Defined.

(** ** The day-count release against the one before *)

Lemma newton_ext (f g df dg : number -> result number) (tol : number) :
  (forall r, f r = g r) -> (forall r, df r = dg r) ->
  forall (n : nat) (r : number), newton f df tol n r = newton g dg tol n r.
Proof.
  intros Ef Ed. induction n as [|n IH]; intros r; cbn [newton].
  - reflexivity.
  - rewrite Ef, Ed. destruct (g r) as [y| |]; cbn [bind]; try reflexivity.
    destruct (dg r) as [dy| |]; cbn [bind]; try reflexivity.
    destruct (Math_abs y <? tol)%num; [reflexivity|].
    destruct ((dy === 0)%num || negb (Number_isFinite dy)); [reflexivity|].
    destruct (negb (Number_isFinite (r - y / dy)%num)
              || (r - y / dy <=? -0.999999)%num); [reflexivity | apply IH].
Qed.

Lemma bisect_ext (f g : number -> result number) (tol : number) :
  (forall r, f r = g r) ->
  forall (n : nat) (lo hi flo fhi : number),
    bisect f tol n lo hi flo fhi = bisect g tol n lo hi flo fhi.
Proof.
  intros Ef. induction n as [|n IH]; intros lo hi flo fhi; cbn [bisect].
  - reflexivity.
  - rewrite Ef. destruct (g ((lo + hi) / 2)%num) as [fm| |]; cbn [bind];
      try reflexivity.
    destruct (Math_abs fm <? tol)%num; [reflexivity|].
    destruct (flo * fm <=? 0)%num; apply IH.
Qed.

Lemma solve_ext (f g df dg : number -> result number)
    (tol guess lo hi : number) :
  (forall r, f r = g r) -> (forall r, df r = dg r) ->
  solve f df tol guess lo hi = solve g dg tol guess lo hi.
Proof.
  intros Ef Ed. unfold solve.
  rewrite (newton_ext f g df dg tol Ef Ed).
  destruct (newton g dg tol 50 guess) as [[r|]| |]; cbn [bind]; try reflexivity.
  rewrite !Ef.
  destruct (g lo) as [flo| |]; cbn [bind]; try reflexivity.
  destruct (g hi) as [fhi| |]; cbn [bind]; try reflexivity.
  destruct (flo * fhi >? 0)%num; [reflexivity | now apply bisect_ext].
Qed.

Section AgainstV1.

Variable Date_parse : string -> option Z.

Lemma xnpv_reduce_V1 (rate : number) (dates : list string) :
  forall (l : list number) (t : nat) (acc : number),
    reduceM_from (xnpv_step Date_parse rate dates default_basis) l t acc
    = Ok (reduce_from
            (V1.xnpv_step Date_parse rate dates
               (new_Date Date_parse (nth_error dates 0))) l t acc).
Proof.
  induction l as [|cf rest IH]; intros t acc.
  - reflexivity.
  - cbn [reduceM_from reduce_from]. unfold xnpv_step at 1.
    unfold yearFrac, default_basis. rewrite !Number_isNaN_Date. cbn [orb].
    change (String.eqb "ACT/365" "ACT/365") with true. cbv iota.
    cbn [bind]. rewrite IH. reflexivity.
Qed.

Lemma xnpv_V1 (rate : number) (cashflows : list number) (dates : list string) :
  xnpv Date_parse rate cashflows dates default_basis
  = V1.xnpv Date_parse rate cashflows dates.
Proof.
  unfold xnpv, V1.xnpv, reduceM, reduce.
  destruct (negb (Nat.eqb (List.length cashflows) (List.length dates)));
    [reflexivity | apply xnpv_reduce_V1].
Qed.

(** X15.  The day-count release keeps the earlier behaviour under its
    default basis: on every rate, cashflows and dates (parsing or not),
    xnpv with basis 'ACT/365' returns or throws what the earlier xnpv does,
    and so does xirr against the earlier xirr, from every guess. *)
Theorem default_basis_is_V1 (rate guess : number) (cashflows : list number)
    (dates : list string) :
  xnpv Date_parse rate cashflows dates default_basis
    = V1.xnpv Date_parse rate cashflows dates /\
  xirr Date_parse cashflows dates guess default_basis
    = V1.xirr Date_parse cashflows dates guess.
Proof.
  split; [apply xnpv_V1|].
  unfold xirr, V1.xirr. apply solve_ext.
  - intros r. apply xnpv_V1.
  - intros r. now rewrite !xnpv_V1.
Qed.

End AgainstV1.

(** ** What irr and xirr return *)

Lemma payoff_within_ext (f g : number -> result number) (v tol : R) :
  (forall x : R, f (Fin x) = g (Fin x)) ->
  payoff_within f v tol -> payoff_within g v tol.
Proof. intros E [y [Hy Ht]]. exists y. now rewrite <- E. Qed.

Lemma one_signed_bracket_ext (f g : number -> result number) (lo hi : R) :
  (forall x : R, f (Fin x) = g (Fin x)) ->
  one_signed_bracket f (Fin lo) (Fin hi) ->
  one_signed_bracket g (Fin lo) (Fin hi).
Proof.
  intros E [ylo [yhi [Hlo [Hhi Hs]]]]. exists ylo, yhi. now rewrite <- !E.
Qed.

(** X12.  What irr returns, on every array of flows and from every guess
    above -1.  It fails only with RootNotBracketed, and only when the two
    values of npv at -0.9 and at 10 have one strict sign; a rate it returns
    is above -1 and either has npv within 1e-10 of 0 (a tolerance exit) or
    lies in the bracket from -0.9 to 10 (the last midpoint of the
    bisection). *)
Theorem irr_sound (cashflows : list number) (guess : R) :
  -1 < guess ->
  (irr cashflows (Fin guess) = Throw RootNotBracketed /\
   one_signed_bracket (fun r => npv r cashflows) (Fin (-0.9)) (Fin 10))
  \/
  exists v : R,
    irr cashflows (Fin guess) = Ok (Fin v) /\
    -1 < v /\
    (payoff_within (fun r => npv r cashflows) v 1e-10 \/ -0.9 <= v <= 10).
Proof.
  intros Hg. unfold irr.
  set (f := fun r : number => Ok (reduce (discount_step r) cashflows (Fin 0))).
  set (df := fun r : number => Ok (reduce (irr_df_step r) cashflows (Fin 0))).
  assert (E : forall x : R, f (Fin x) = npv (Fin x) cashflows) by reflexivity.
  assert (Hf : forall r, exists y, f r = Ok y) by (intros r; now eexists).
  assert (Hdf : forall r, exists dy, df r = Ok dy) by (intros r; now eexists).
  destruct (solve_sound f df Hf Hdf 1e-10 guess (-0.9) 10)
    as [[Hthrow Hsign] | [v [Hv [Hv1 Hres]]]]; try lra.
  - left. split; [exact Hthrow|].
    now apply (one_signed_bracket_ext f).
  - right. exists v. split; [exact Hv|]. split; [exact Hv1|].
    destruct Hres as [Hres | Hres]; [left | now right].
    now apply (payoff_within_ext f).
Qed.

Lemma irr_sound_witness :
  (irr [Fin (-100); Fin 60; Fin 60] (Fin 0.1) = Throw RootNotBracketed /\
   one_signed_bracket (fun r => npv r [Fin (-100); Fin 60; Fin 60])
     (Fin (-0.9)) (Fin 10))
  \/
  exists v : R,
    irr [Fin (-100); Fin 60; Fin 60] (Fin 0.1) = Ok (Fin v) /\
    -1 < v /\
    (payoff_within (fun r => npv r [Fin (-100); Fin 60; Fin 60]) v 1e-10 \/
     -0.9 <= v <= 10).
Proof.
  apply (irr_sound [Fin (-100); Fin 60; Fin 60] 0.1). lra.
Defined.

Section XirrSound.

Variable Date_parse : string -> option Z.

(** X13.  What xirr returns on flows paired with as many dates, parsing or
    not, under a supported basis and from every guess above -1.  It fails
    only with RootNotBracketed, and only when the two values of xnpv at
    -0.9 and at 10 have one strict sign; a rate it returns is above -1 and
    either has xnpv within 1e-8 of 0 (a tolerance exit) or lies in the
    bracket from -0.9 to 10 (the last midpoint of the bisection). *)
Theorem xirr_sound (cashflows : list number) (dates : list string)
    (basis : string) (guess : R) :
  -1 < guess ->
  List.length cashflows = List.length dates ->
  supported_basis basis ->
  (xirr Date_parse cashflows dates (Fin guess) basis
     = Throw RootNotBracketed /\
   one_signed_bracket (fun r => xnpv Date_parse r cashflows dates basis)
     (Fin (-0.9)) (Fin 10))
  \/
  exists v : R,
    xirr Date_parse cashflows dates (Fin guess) basis = Ok (Fin v) /\
    -1 < v /\
    (payoff_within (fun r => xnpv Date_parse r cashflows dates basis) v 1e-8 \/
     -0.9 <= v <= 10).
Proof.
  intros Hg Hlen Hb. unfold xirr.
  match goal with
  | |- context [solve ?f0 ?df0 _ _ _ _] => set (f := f0); set (df := df0)
  end.
  assert (Hf : forall r, exists y, f r = Ok y).
  { intros r. unfold f, xnpv, reduceM. rewrite Hlen, Nat.eqb_refl. cbn [negb].
    now apply xnpv_reduce_supported. }
  assert (Hdf : forall r, exists dy, df r = Ok dy).
  { intros r. unfold df.
    destruct (Hf (r + Fin 1e-6)%num) as [a Ha]. unfold f in Ha. rewrite Ha.
    destruct (Hf (r - Fin 1e-6)%num) as [b Hb']. unfold f in Hb'. rewrite Hb'.
    now eexists. }
  exact (solve_sound f df Hf Hdf 1e-8 guess (-0.9) 10 Hg
           ltac:(lra) ltac:(lra)).
Qed.

End XirrSound.

(** ** yearFrac between two dates, taken both ways *)

Section YearFracSwapped.

Variable Date_parse : string -> option Z.

(** X16.  Swapping the two dates changes the sign of the year fraction and
    nothing else: for two dates that parse and any of the supported bases,
    yearFrac(b, a) is the opposite of yearFrac(a, b), and yearFrac(a, a)
    is 0. *)
Theorem yearFrac_swapped (a b : string) (basis : string) (ta tb : Z) :
  Date_parse a = Some ta -> Date_parse b = Some tb ->
  supported_basis basis ->
  exists x : R,
    yearFrac Date_parse (Some a) (Some b) basis = Ok (Fin x) /\
    yearFrac Date_parse (Some b) (Some a) basis = Ok (- Fin x)%num /\
    yearFrac Date_parse (Some a) (Some a) basis = Ok (Fin 0).
Proof.
  intros Ha Hb Hbasis. unfold yearFrac, new_Date. rewrite Ha, Hb.
  rewrite !Number_isNaN_Date. cbn [orb].
  destruct Hbasis as [-> | [-> | ->]].
  - change (String.eqb "ACT/365" "ACT/365") with true. cbv iota.
    cbn [Date_valueOf time_value]. num_eval.
    eexists. split; [reflexivity|]. split; apply Ok_Fin_eq; field.
  - change (String.eqb "ACT/360" "ACT/365") with false.
    change (String.eqb "ACT/360" "ACT/360") with true. cbv iota.
    cbn [Date_valueOf time_value]. num_eval.
    eexists. split; [reflexivity|]. split; apply Ok_Fin_eq; field.
  - change (String.eqb "30E/360" "ACT/365") with false.
    change (String.eqb "30E/360" "ACT/360") with false.
    change (String.eqb "30E/360" "30E/360") with true. cbv iota zeta.
    unfold getUTCFullYear, getUTCMonth, getUTCDate, date_field, Math_min.
    cbn [time_value num_ltb].
    set (ca := civil_from_days (ta / msPerDay)).
    set (cb := civil_from_days (tb / msPerDay)).
    destruct (Rltb_spec (IZR (snd ca)) 30);
      destruct (Rltb_spec (IZR (snd cb)) 30);
      num_eval;
      (eexists; split; [reflexivity|]; split; apply Ok_Fin_eq; field).
Qed.

End YearFracSwapped.

Lemma xirr_sound_witness :
  (xirr parse_iso_date [Fin (-100); Fin 110] ["2025-01-01"; "2026-01-01"]%string
     (Fin 0.1) "ACT/365" = Throw RootNotBracketed /\
   one_signed_bracket
     (fun r => xnpv parse_iso_date r [Fin (-100); Fin 110]
                 ["2025-01-01"; "2026-01-01"]%string "ACT/365")
     (Fin (-0.9)) (Fin 10))
  \/
  exists v : R,
    xirr parse_iso_date [Fin (-100); Fin 110] ["2025-01-01"; "2026-01-01"]%string
      (Fin 0.1) "ACT/365" = Ok (Fin v) /\
    -1 < v /\
    (payoff_within
       (fun r => xnpv parse_iso_date r [Fin (-100); Fin 110]
                   ["2025-01-01"; "2026-01-01"]%string "ACT/365") v 1e-8 \/
     -0.9 <= v <= 10).
Proof.
  apply (xirr_sound parse_iso_date [Fin (-100); Fin 110]
           ["2025-01-01"; "2026-01-01"]%string "ACT/365" 0.1).
  - lra.
  - reflexivity.
  - left. reflexivity.
Defined.

Lemma yearFrac_swapped_witness :
  exists x : R,
    yearFrac parse_iso_date (Some "2025-01-31"%string)
      (Some "2025-03-31"%string) "30E/360" = Ok (Fin x) /\
    yearFrac parse_iso_date (Some "2025-03-31"%string)
      (Some "2025-01-31"%string) "30E/360" = Ok (- Fin x)%num /\
    yearFrac parse_iso_date (Some "2025-01-31"%string)
      (Some "2025-01-31"%string) "30E/360" = Ok (Fin 0).
Proof.
  apply (yearFrac_swapped parse_iso_date "2025-01-31" "2025-03-31" "30E/360"
           1738281600000 1743379200000).
  - reflexivity.
  - reflexivity.
  - right. right. reflexivity.
Defined.

(** ** wacc and ddmGordon *)

Lemma num_add_NaN_right (a : number) : (a + NaN)%num = NaN.
Proof. now destruct a. Qed.

Lemma num_mul_NaN_left (a : number) : (NaN * a)%num = NaN.
Proof. now destruct a. Qed.

Lemma num_div_NaN_right (a : number) : (a / NaN)%num = NaN.
Proof. now destruct a. Qed.

(** X18.  NaN passes both guards: every comparison with NaN is false, so
    wacc with a NaN weight and ddmGordon with a NaN growth or required
    return do not fail; each returns NaN. *)
Theorem NaN_passes_the_guards (we wd re rd tax D1 g r : number) :
  (we = NaN \/ wd = NaN -> wacc we wd re rd tax = inr NaN) /\
  (g = NaN \/ r = NaN -> ddmGordon D1 g r = inr NaN).
Proof.
  split.
  - intros [-> | ->]; unfold wacc, num_gtb.
    + cbn [num_add num_sub Math_abs num_ltb].
      now rewrite num_mul_NaN_left.
    + rewrite num_add_NaN_right. cbn [num_sub num_add Math_abs num_ltb].
      now rewrite !num_mul_NaN_left, num_add_NaN_right.
  - intros [-> | ->]; unfold ddmGordon.
    + assert (E : (r <=? NaN)%num = false) by now destruct r.
      rewrite E, num_sub_NaN_r. now rewrite num_div_NaN_right.
    + cbn [num_leb]. rewrite num_sub_NaN_l. now rewrite num_div_NaN_right.
Qed.

Lemma NaN_passes_the_guards_witness :
  wacc NaN (Fin 0.4) (Fin 0.12) (Fin 0.07) (Fin 0.21) = inr NaN /\
  ddmGordon (Fin 2) NaN (Fin 0.09) = inr NaN.
Proof.
  split.
  - apply (NaN_passes_the_guards NaN (Fin 0.4) (Fin 0.12) (Fin 0.07) (Fin 0.21)
             (Fin 2) NaN (Fin 0.09)).
    now left.
  - apply (NaN_passes_the_guards NaN (Fin 0.4) (Fin 0.12) (Fin 0.07) (Fin 0.21)
             (Fin 2) NaN (Fin 0.09)).
    now left.
Defined.

